(** * ChatInterface: a model of src/components/ChatInterface.jsx

    The component keeps six pieces of React state (messages, input,
    isLoading, apiKey, provider, showSettings), persists two strings in
    localStorage, and relays the conversation to one of two HTTP APIs.

    The development is organised as follows.
    - [JS]: the fragment of JavaScript values and coercions the component
      relies on (truthiness, property reads, ToString, trim,
      JSON.stringify).
    - [Net]: requests, responses and a small monad for [async] functions
      that suspend on [fetch].
    - [Chat]: the component itself, handler by handler, and the event
      loop that drives it.
    - the theorems about the component. *)

From Stdlib Require Import ZArith Ascii String List Bool Lia.
From stdpp Require Import base option list strings gmap pretty.

Set Warnings "-register-all".
Local Open Scope string_scope.
Local Open Scope list_scope.

(* ===================================================================== *)
(** * JavaScript values *)
(* ===================================================================== *)

Module JS.

(** Runtime values.  Numbers are the integer-valued ones (the only number
    the component itself writes is [2048]): [VNum n] is the Number that
    the integer literal [n] denotes, that is the double nearest to [n].
    A string is a sequence of code units below 256, one [ascii] each.  An
    object is the list of its own properties in insertion order; a
    property read takes the first entry with the requested key. *)
Inductive jsval : Type :=
| VUndefined
| VNull
| VBool (b : bool)
| VNum (n : Z)
| VStr (s : string)
| VArr (elems : list jsval)
| VObj (props : list (string * jsval)).

(** Thrown values are [Error] objects; handlers only read [.message]. *)
Record Error : Type := mkError { message : string }.

(** A JavaScript expression either yields a value or throws. *)
Inductive completion (A : Type) : Type :=
| Normal (a : A)
| Throw (e : Error).
Arguments Normal {A} a.
Arguments Throw {A} e.

(** ** Truthiness ([!x], [x || y], [if (x)]) *)

Definition truthy (v : jsval) : bool :=
  match v with
  | VUndefined | VNull => false
  | VBool b => b
  | VNum n => negb (n =? 0)%Z
  | VStr s => negb (String.eqb s "")
  | VArr _ | VObj _ => true
  end.

(** [a || b] *)
Definition or_else (a b : jsval) : jsval := if truthy a then a else b.

(** ** Property reads *)

Fixpoint assoc (p : string) (props : list (string * jsval)) : option jsval :=
  match props with
  | [] => None
  | (k, v) :: rest => if String.eqb k p then Some v else assoc p rest
  end.

Definition base_name (v : jsval) : string :=
  match v with VNull => "null" | _ => "undefined" end.

(** The text of the TypeError raised by a read on [null] or [undefined] is
    the engine's; the wording here is V8's. *)
Definition typeErrorMessage (base : jsval) (p : string) : string :=
  "Cannot read properties of " +:+ base_name base +:+ " (reading '" +:+ p +:+ "')".

(** [base.p] for a property name [p] that no built-in prototype defines
    (the component reads [error], [message], [content], [text] and
    [choices]). *)
Definition get_prop (base : jsval) (p : string) : completion jsval :=
  match base with
  | VUndefined | VNull => Throw (mkError (typeErrorMessage base p))
  | VObj props => Normal (default VUndefined (assoc p props))
  | _ => Normal VUndefined
  end.

(** [base?.p] *)
Definition get_prop_opt (base : jsval) (p : string) : completion jsval :=
  match base with
  | VUndefined | VNull => Normal VUndefined
  | _ => get_prop base p
  end.

(** [base[0]] *)
Definition get_index0 (base : jsval) : completion jsval :=
  match base with
  | VUndefined | VNull => Throw (mkError (typeErrorMessage base "0"))
  | VArr elems => Normal (hd VUndefined elems)
  | VStr s => Normal (match s with
                      | EmptyString => VUndefined
                      | String c _ => VStr (String c EmptyString)
                      end)
  | VObj props => Normal (default VUndefined (assoc "0" props))
  | _ => Normal VUndefined
  end.

(** ** Numbers

    The double nearest to a non-negative integer, ties to even; [None]
    when it is beyond the largest double, where the Number is
    [Infinity]. *)
Definition round_to_double (a : Z) : option Z :=
  if (a <? 2 ^ 53)%Z then Some a
  else
    let shift := (Z.log2 a - 52)%Z in
    let q := Z.shiftr a shift in
    let rest := (a - Z.shiftl q shift)%Z in
    let half := Z.shiftl 1 (shift - 1) in
    let q' := if (half <? rest)%Z || ((rest =? half)%Z && Z.odd q)
              then (q + 1)%Z else q in
    let v := Z.shiftl q' shift in
    if (v <? 2 ^ 1024)%Z then Some v else None.

Definition is_double (v a : Z) : bool :=
  match round_to_double a with
  | Some v' => (v' =? v)%Z
  | None => false
  end.

(** The decimal with the fewest significant digits that denotes the
    double [v > 0]; of two such, the nearer to [v], then the even one. *)
Definition shortest_decimal (v : Z) : Z :=
  let d := Z.of_nat (String.length (pretty v)) in
  (fix go (fuel : nat) (k : Z) : Z :=
     match fuel with
     | O => v
     | S fuel' =>
         let p := (10 ^ (d - k))%Z in
         let lo := (v / p * p)%Z in
         let hi := (lo + p)%Z in
         match is_double v lo, is_double v hi with
         | true, true =>
             if (v - lo <? hi - v)%Z then lo
             else if (hi - v <? v - lo)%Z then hi
             else if Z.even (v / p) then lo else hi
         | true, false => lo
         | false, true => hi
         | false, false => go fuel' (k + 1)%Z
         end
     end) (Z.to_nat d) 1%Z.

Fixpoint strip_trailing_zeros (s : string) : string :=
  match s with
  | EmptyString => EmptyString
  | String c rest =>
      match strip_trailing_zeros rest with
      | EmptyString => if Ascii.eqb c "0" then EmptyString else String c EmptyString
      | kept => String c kept
      end
  end.

(** Number::toString for [VNum n]: all the digits up to 21 of them,
    the exponent form beyond. *)
Definition Number_toString (n : Z) : string :=
  if (n =? 0)%Z then "0"
  else
    let sign := if (n <? 0)%Z then "-" else "" in
    match round_to_double (Z.abs n) with
    | None => sign +:+ "Infinity"
    | Some v =>
        let digits := pretty (shortest_decimal v) in
        let count := String.length digits in
        if Nat.leb count 21 then sign +:+ digits
        else
          match strip_trailing_zeros digits with
          | EmptyString => sign +:+ digits
          | String c EmptyString =>
              sign +:+ String c EmptyString +:+ "e+" +:+ pretty (Nat.pred count)
          | String c more =>
              sign +:+ String c EmptyString +:+ "." +:+ more
                   +:+ "e+" +:+ pretty (Nat.pred count)
          end
    end.

(** ** ToString, as applied by [new Error(x)] and by template literals

    An object with an own [toString] entry (which, coming from JSON, is
    not a function) cannot be converted: the conversion throws.  Other
    objects print as [[object Object]]; arrays as their elements joined
    by commas, [null] and [undefined] elements printing as the empty
    string, and throw when an element does. *)
Fixpoint ToString (v : jsval) : completion string :=
  match v with
  | VUndefined => Normal "undefined"
  | VNull => Normal "null"
  | VBool true => Normal "true"
  | VBool false => Normal "false"
  | VNum n => Normal (Number_toString n)
  | VStr s => Normal s
  | VArr elems =>
      (fix join (first : bool) (es : list jsval) : completion string :=
         match es with
         | [] => Normal ""
         | e :: rest =>
             match (match e with
                    | VUndefined | VNull => Normal ""
                    | _ => ToString e
                    end) with
             | Throw err => Throw err
             | Normal s =>
                 match join false rest with
                 | Throw err => Throw err
                 | Normal t => Normal ((if first then "" else ",") +:+ s +:+ t)
                 end
             end
         end) true elems
  | VObj props =>
      match assoc "toString" props with
      | Some _ => Throw (mkError "Cannot convert object to primitive value")
      | None => Normal "[object Object]"
      end
  end.

(** [new Error(x)]: the message is [ToString x] unless [x] is undefined;
    when the conversion throws, so does the construction. *)
Definition new_Error (x : jsval) : completion Error :=
  match x with
  | VUndefined => Normal (mkError "")
  | _ => match ToString x with
         | Normal s => Normal (mkError s)
         | Throw err => Throw err
         end
  end.

(** ** String.prototype.trim *)

(** White space and line terminators among the code units below 256:
    TAB, LF, VT, FF, CR, SPACE and NBSP. *)
Definition is_white_space (c : ascii) : bool :=
  let n := nat_of_ascii c in
  (Nat.leb 9 n && Nat.leb n 13) || Nat.eqb n 32 || Nat.eqb n 160.

Fixpoint trimStart (s : string) : string :=
  match s with
  | EmptyString => EmptyString
  | String c rest => if is_white_space c then trimStart rest else s
  end.

Fixpoint trimEnd (s : string) : string :=
  match s with
  | EmptyString => EmptyString
  | String c rest =>
      match trimEnd rest with
      | EmptyString => if is_white_space c then EmptyString else String c EmptyString
      | kept => String c kept
      end
  end.

Definition trim (s : string) : string := trimEnd (trimStart s).

(** Empty or made of white space only. *)
Fixpoint blank (s : string) : bool :=
  match s with
  | EmptyString => true
  | String c rest => is_white_space c && blank rest
  end.

(** ** JSON.stringify

    The body of a request is text; the model keeps the JSON document that
    text denotes.  Serialisation drops every property whose value is
    [undefined] and writes [null] for an [undefined] array element and
    for an infinite number. *)
Fixpoint JSON_stringify (v : jsval) : jsval :=
  match v with
  | VNum n =>
      match round_to_double (Z.abs n) with
      | Some _ => v
      | None => VNull
      end
  | VArr elems =>
      VArr (List.map (fun e => match e with
                               | VUndefined => VNull
                               | _ => JSON_stringify e
                               end) elems)
  | VObj props =>
      VObj ((fix go (ps : list (string * jsval)) : list (string * jsval) :=
               match ps with
               | [] => []
               | (k, VUndefined) :: rest => go rest
               | (k, x) :: rest => (k, JSON_stringify x) :: go rest
               end) props)
  | _ => v
  end.

End JS.

(* ===================================================================== *)
(** * The network and [async] functions *)
(* ===================================================================== *)

Module Net.
Import JS.

(** What [fetch(url, {method, headers, body})] puts on the wire.  [body]
    is the document written by [JSON.stringify]. *)
Record request : Type := mkRequest {
  url : string;
  method : string;
  headers : list (string * string);
  body : jsval
}.

(** A response: its status line and what [response.json()] settles to
    (the parsed body, or the parser's error when the body is not JSON). *)
Record response : Type := mkResponse {
  status : Z;
  json : completion jsval
}.

(** [response.ok] is true exactly for the statuses 200 to 299. *)
Definition ok (r : response) : bool :=
  ((200 <=? status r) && (status r <=? 299))%Z.

(** The promise returned by [fetch] resolves with a response, whatever
    its status, or rejects when no response arrives. *)
Inductive fetch_outcome : Type :=
| Responded (r : response)
| Failed (e : Error).

(** An [async] function over component state [S]: it runs until it
    returns, throws, queues a state update, or suspends on a [fetch]. *)
Inductive async (S A : Type) : Type :=
| Resolve (a : A)
| Reject (e : Error)
| Update (f : S -> S) (k : async S A)
| Fetch (req : request) (k : fetch_outcome -> async S A).
Arguments Resolve {S A} a.
Arguments Reject {S A} e.
Arguments Update {S A} f k.
Arguments Fetch {S A} req k.

Fixpoint bind {S A B} (f : A -> async S B) (t : async S A) : async S B :=
  match t with
  | Resolve a => f a
  | Reject e => Reject e
  | Update u k => Update u (bind f k)
  | Fetch req k => Fetch req (fun o => bind f (k o))
  end.

#[export] Instance async_ret {S} : MRet (async S) := fun A a => Resolve a.
#[export] Instance async_bind {S} : MBind (async S) := fun A B f t => bind f t.

(** A state setter called for its effect. *)
Definition set_state {S} (f : S -> S) : async S unit := Update f (Resolve tt).

(** [await fetch(...)] *)
Definition await_fetch {S} (req : request) : async S response :=
  Fetch req (fun o => match o with
                      | Responded r => Resolve r
                      | Failed e => Reject e
                      end).

(** Lifting an expression that may throw, as in [await response.json()]. *)
Definition lift {S A} (c : completion A) : async S A :=
  match c with
  | Normal a => Resolve a
  | Throw e => Reject e
  end.

(** [try { t } catch (error) { h error }] *)
Fixpoint try_catch {S A} (t : async S A) (h : Error -> async S A) : async S A :=
  match t with
  | Resolve a => Resolve a
  | Reject e => h e
  | Update u k => Update u (try_catch k h)
  | Fetch req k => Fetch req (fun o => try_catch (k o) h)
  end.

(** [try { t } finally { fin }] *)
Fixpoint try_finally {S A} (t : async S A) (fin : async S unit) : async S A :=
  match t with
  | Resolve a => fin ;; Resolve a
  | Reject e => fin ;; Reject e
  | Update u k => Update u (try_finally k fin)
  | Fetch req k => Fetch req (fun o => try_finally (k o) fin)
  end.

(** Running a task to completion against a network that answers each
    request: the final state, how the task completed, and the requests
    issued, oldest first. *)
Fixpoint exec {S A} (net : request -> fetch_outcome) (t : async S A) (s : S)
  : S * completion A * list request :=
  match t with
  | Resolve a => (s, Normal a, [])
  | Reject e => (s, Throw e, [])
  | Update u k => exec net k (u s)
  | Fetch req k =>
      let '(s', c, reqs) := exec net (k (net req)) s in
      (s', c, req :: reqs)
  end.

End Net.

(* ===================================================================== *)
(** * The component *)
(* ===================================================================== *)

Module Chat.
Import JS Net.

(** An entry of the conversation: [{ role, content }]. *)
Record Message : Type := mkMessage {
  role : string;
  content : jsval
}.

(** The object literal [{ role: m.role, content: m.content }]. *)
Definition message_value (m : Message) : jsval :=
  VObj [("role", VStr (role m)); ("content", content m)].

(** The [useState] cells of [ChatInterface]. *)
Record state : Type := mkState {
  messages : list Message;
  input : string;
  isLoading : bool;
  apiKey : string;
  provider : string;
  showSettings : bool
}.

Definition setMessages (f : list Message -> list Message) (st : state) : state :=
  mkState (f (messages st)) (input st) (isLoading st) (apiKey st)
          (provider st) (showSettings st).
Definition setInput (v : string) (st : state) : state :=
  mkState (messages st) v (isLoading st) (apiKey st)
          (provider st) (showSettings st).
Definition setIsLoading (v : bool) (st : state) : state :=
  mkState (messages st) (input st) v (apiKey st)
          (provider st) (showSettings st).
Definition setApiKey (v : string) (st : state) : state :=
  mkState (messages st) (input st) (isLoading st) v
          (provider st) (showSettings st).
Definition setProvider (v : string) (st : state) : state :=
  mkState (messages st) (input st) (isLoading st) (apiKey st)
          v (showSettings st).
Definition setShowSettings (v : bool) (st : state) : state :=
  mkState (messages st) (input st) (isLoading st) (apiKey st)
          (provider st) v.

(** The state of the first render. *)
Definition initial (agentDescription : string) : state :=
  {| messages :=
       [ {| role := "assistant";
            content := VStr ("Hello! I'm " +:+ agentDescription
                             +:+ ". How can I help you today?") |} ];
     input := "";
     isLoading := false;
     apiKey := "";
     provider := "anthropic";
     showSettings := false |}.

(** ** localStorage *)

Definition getItem (k : string) (ls : gmap string string) : option string :=
  ls !! k.
Definition setItem (k v : string) (ls : gmap string string) : gmap string string :=
  <[k := v]> ls.
Definition removeItem (k : string) (ls : gmap string string) : gmap string string :=
  delete k ls.

(** [if (x)] for the result of [getItem]: [null] and the empty string
    are falsy. *)
Definition stored_truthy (x : option string) : bool :=
  match x with
  | None => false
  | Some s => negb (String.eqb s "")
  end.

(** "Load API key from localStorage on mount". *)
Definition load (ls : gmap string string) (st : state) : state :=
  let storedKey := getItem "ai_api_key" ls in
  let storedProvider := getItem "ai_provider" ls in
  let st := if stored_truthy storedKey
            then setApiKey (default "" storedKey) st else st in
  if stored_truthy storedProvider
  then setProvider (default "" storedProvider) st else st.

(** "Show settings if no API key is set": runs after a render in which
    [apiKey] differs from the previous render's, and after the first. *)
Definition show_settings_effect (rendered : state) (st : state) : state :=
  if String.eqb (apiKey rendered) "" then setShowSettings true st else st.

Definition after_render (before after : state) : state :=
  if String.eqb (apiKey before) (apiKey after) then after
  else show_settings_effect after after.

(** Mounting: both effects run against the first render, whose [apiKey]
    is empty; the second runs again if the load changed [apiKey]. *)
Definition mount (agentDescription : string) (ls : gmap string string) : state :=
  let st0 := initial agentDescription in
  let st1 := show_settings_effect st0 (load ls st0) in
  after_render st0 st1.

Definition saveSettings (st : state) (ls : gmap string string)
  : state * gmap string string :=
  if negb (String.eqb (trim (apiKey st)) "") then
    let ls := setItem "ai_api_key" (trim (apiKey st)) ls in
    let ls := setItem "ai_provider" (provider st) ls in
    (setShowSettings false st, ls)
  else (st, ls).

Definition clearSettings (st : state) (ls : gmap string string)
  : state * gmap string string :=
  let ls := removeItem "ai_api_key" ls in
  let ls := removeItem "ai_provider" ls in
  (setShowSettings true (setProvider "anthropic" (setApiKey "" st)), ls).

(** ** The provider adapters *)

Definition generic_failure : jsval := VStr "API request failed".

(** [throw new Error(error.error?.message || 'API request failed')] *)
Definition throw_api_error (error : jsval) : completion jsval :=
  match get_prop error "error" with
  | Throw e => Throw e
  | Normal inner =>
      match get_prop_opt inner "message" with
      | Throw e => Throw e
      | Normal msg =>
          match new_Error (or_else msg generic_failure) with
          | Normal e => Throw e
          | Throw e => Throw e
          end
      end
  end.

Definition callAnthropicAPI (st : state) (messageHistory : list Message)
  : async state jsval :=
  response ← await_fetch
    {| url := "https://api.anthropic.com/v1/messages";
       method := "POST";
       headers := [ ("Content-Type", "application/json");
                    ("x-api-key", apiKey st);
                    ("anthropic-version", "2023-06-01") ];
       body := JSON_stringify
                 (VObj [ ("model", VStr "claude-3-5-sonnet-20241022");
                         ("max_tokens", VNum 2048);
                         ("messages", VArr (List.map message_value messageHistory)) ]) |};
  if negb (ok response) then
    error ← lift (json response);
    lift (throw_api_error error)
  else
    data ← lift (json response);
    c ← lift (get_prop data "content");
    c0 ← lift (get_index0 c);
    lift (get_prop c0 "text").

Definition callOpenAIAPI (st : state) (messageHistory : list Message)
  : async state jsval :=
  response ← await_fetch
    {| url := "https://api.openai.com/v1/chat/completions";
       method := "POST";
       headers := [ ("Content-Type", "application/json");
                    ("Authorization", "Bearer " +:+ apiKey st) ];
       body := JSON_stringify
                 (VObj [ ("model", VStr "gpt-4");
                         ("messages", VArr (List.map message_value messageHistory)) ]) |};
  if negb (ok response) then
    error ← lift (json response);
    lift (throw_api_error error)
  else
    data ← lift (json response);
    cs ← lift (get_prop data "choices");
    c0 ← lift (get_index0 cs);
    m ← lift (get_prop c0 "message");
    lift (get_prop m "content").

(** ** handleSubmit *)

(** [!input.trim() || isLoading || !apiKey] *)
Definition submit_blocked (st : state) : bool :=
  String.eqb (trim (input st)) "" || isLoading st || String.eqb (apiKey st) "".

Definition error_text (error : Error) : string :=
  "Error: " +:+ message error +:+ ". Please check your API key in settings.".

Definition handleSubmit (st : state) : async state unit :=
  if submit_blocked st then mret tt
  else
    let userMessage := {| role := "user"; content := VStr (input st) |} in
    let newMessages := messages st ++ [userMessage] in
    set_state (setMessages (fun _ => newMessages));;
    set_state (setInput "");;
    set_state (setIsLoading true);;
    try_finally
      (try_catch
         (let messageHistory :=
            List.map (fun msg => {| role := role msg; content := content msg |})
                     newMessages in
          responseText ←
            (if String.eqb (provider st) "anthropic"
             then callAnthropicAPI st messageHistory
             else if String.eqb (provider st) "openai"
             then callOpenAIAPI st messageHistory
             else mret VUndefined);
          let assistantMessage :=
            {| role := "assistant"; content := responseText |} in
          set_state (setMessages (fun prev => prev ++ [assistantMessage])))
         (fun error =>
          let errorMessage :=
            {| role := "assistant"; content := VStr (error_text error) |} in
          set_state (setMessages (fun prev => prev ++ [errorMessage]))))
      (set_state (setIsLoading false)).

(** ** The event loop

    Besides the component state, the page holds localStorage, the
    continuations of the fetches still in flight, and (for the record)
    every request issued so far, oldest first. *)
Record world : Type := mkWorld {
  ui : state;
  localStorage : gmap string string;
  inflight : list (fetch_outcome -> async state unit);
  sent : list request
}.

Definition with_ui (f : state -> state) (w : world) : world :=
  mkWorld (f (ui w)) (localStorage w) (inflight w) (sent w).

(** Running a handler until it finishes or suspends on a fetch.  A
    rejection that nothing catches leaves the state as it is. *)
Fixpoint drive (t : async state unit) (w : world) : world :=
  match t with
  | Resolve _ => w
  | Reject _ => w
  | Update f k => drive k (with_ui f w)
  | Fetch req k =>
      mkWorld (ui w) (localStorage w) (inflight w ++ [k]) (sent w ++ [req])
  end.

(** The two [<option>]s of the provider [<select>]. *)
Inductive provider_option : Type := OptAnthropic | OptOpenAI.

Definition option_value (o : provider_option) : string :=
  match o with
  | OptAnthropic => "anthropic"
  | OptOpenAI => "openai"
  end.

Inductive event : Type :=
| Submit                                  (* the form's onSubmit *)
| Settle (i : nat) (o : fetch_outcome)    (* the i-th fetch in flight settles *)
| SaveSettings                            (* "Save & Start" *)
| ClearSettings
| ChangeInput (v : string)
| ChangeApiKey (v : string)
| ChangeProvider (o : provider_option)
| OpenSettings                            (* the settings button *)
| CancelSettings.

Definition handle (ev : event) (w : world) : world :=
  match ev with
  | Submit => drive (handleSubmit (ui w)) w
  | Settle i o =>
      match inflight w !! i with
      | Some k =>
          drive (k o)
                (mkWorld (ui w) (localStorage w) (delete i (inflight w)) (sent w))
      | None => w
      end
  | SaveSettings =>
      let '(st, ls) := saveSettings (ui w) (localStorage w) in
      mkWorld st ls (inflight w) (sent w)
  | ClearSettings =>
      let '(st, ls) := clearSettings (ui w) (localStorage w) in
      mkWorld st ls (inflight w) (sent w)
  | ChangeInput v => with_ui (setInput v) w
  | ChangeApiKey v => with_ui (setApiKey v) w
  | ChangeProvider o => with_ui (setProvider (option_value o)) w
  | OpenSettings => with_ui (setShowSettings true) w
  | CancelSettings => with_ui (setShowSettings false) w
  end.

(** One event: the handler, then the effects of the render it causes. *)
Definition step (ev : event) (w : world) : world :=
  with_ui (after_render (ui w)) (handle ev w).

Definition run (evs : list event) (w : world) : world :=
  fold_left (fun w ev => step ev w) evs w.

(** The page just after mounting. *)
Definition start (agentDescription : string) (ls : gmap string string) : world :=
  mkWorld (mount agentDescription ls) ls [] [].

(** ** The view

    What the JSX computes from the state for the controls it renders. *)

(** The Send button: [disabled={isLoading || !input.trim() || !apiKey}]. *)
Definition send_disabled (st : state) : bool :=
  isLoading st || String.eqb (trim (input st)) "" || String.eqb (apiKey st) "".

(** The message box: [disabled={isLoading || !apiKey}]. *)
Definition input_disabled (st : state) : bool :=
  isLoading st || String.eqb (apiKey st) "".

(** "Save & Start": [disabled={!apiKey.trim()}]. *)
Definition save_disabled (st : state) : bool :=
  String.eqb (trim (apiKey st)) "".

(** Cancel is rendered when [localStorage.getItem('ai_api_key')] is truthy. *)
Definition cancel_offered (ls : gmap string string) : bool :=
  stored_truthy (getItem "ai_api_key" ls).

(** The three dots are rendered while [isLoading]. *)
Definition loading_shown (st : state) : bool := isLoading st.

(** The vendor named in the settings note. *)
Definition note_vendor (st : state) : string :=
  if String.eqb (provider st) "anthropic" then "Anthropic" else "OpenAI".

End Chat.

(* ===================================================================== *)
(** * Vocabulary of the statements *)
(* ===================================================================== *)

Import JS Net Chat.

(** How a task completes against a given network, and what it sends. *)
Definition result_of {S A} (net : request -> fetch_outcome)
    (t : async S A) (s : S) : completion A := (exec net t s).1.2.

Definition requests_of {S A} (net : request -> fetch_outcome)
    (t : async S A) (s : S) : list request := (exec net t s).2.

(** Tasks that queue no state update: the two adapters are of this kind. *)
Fixpoint pure {S A} (t : async S A) : Prop :=
  match t with
  | Resolve _ | Reject _ => True
  | Update _ _ => False
  | Fetch _ k => forall o, pure (k o)
  end.

(** Tasks that have already returned or thrown. *)
Definition settled {S A} (t : async S A) : Prop := exists c, t = lift c.

(** Tasks whose every state update extends the conversation at its end,
    whatever the state it is applied to. *)
Fixpoint appends_only {A} (t : async state A) : Prop :=
  match t with
  | Resolve _ | Reject _ => True
  | Update f k =>
      (forall st, messages st `prefix_of` messages (f st)) /\ appends_only k
  | Fetch _ k => forall o, appends_only (k o)
  end.

(** Every continuation still in flight only ever appends. *)
Definition inflight_append_only (w : world) : Prop :=
  Forall (fun k : fetch_outcome -> async state unit => forall o, appends_only (k o))
         (inflight w).

(** The pieces of [handleSubmit], named. *)
Definition userMessage_of (st : state) : Message :=
  {| role := "user"; content := VStr (input st) |}.

Definition newMessages_of (st : state) : list Message :=
  messages st ++ [userMessage_of st].

Definition messageHistory_of (st : state) : list Message :=
  List.map (fun msg => {| role := role msg; content := content msg |})
           (newMessages_of st).

(** The provider dispatch inside the [try] block. *)
Definition adapter_call (st : state) : async state jsval :=
  if String.eqb (provider st) "anthropic"
  then callAnthropicAPI st (messageHistory_of st)
  else if String.eqb (provider st) "openai"
  then callOpenAIAPI st (messageHistory_of st)
  else mret VUndefined.

(** The rest of [handleSubmit] once the reply task is chosen: the
    [try]/[catch]/[finally] around it. *)
Definition finish (reply : async state jsval) : async state unit :=
  try_finally
    (try_catch
       (responseText ← reply;
        set_state (setMessages (fun prev =>
          prev ++ [ {| role := "assistant"; content := responseText |} ])))
       (fun error =>
        set_state (setMessages (fun prev =>
          prev ++ [ {| role := "assistant"; content := VStr (error_text error) |} ]))))
    (set_state (setIsLoading false)).

(** The content of the assistant Message a reply leads to. *)
Definition assistant_content (c : completion jsval) : jsval :=
  match c with
  | Normal text => text
  | Throw error => VStr (error_text error)
  end.

(** The state right after the synchronous part of an accepted submit. *)
Definition submitted (st : state) : state :=
  setIsLoading true (setInput "" (setMessages (fun _ => newMessages_of st) st)).

(** The state once the reply [c] has been appended. *)
Definition replied (c : completion jsval) (st : state) : state :=
  setIsLoading false
    (setMessages (fun prev =>
       prev ++ [ {| role := "assistant"; content := assistant_content c |} ]) st).

(** A Message as it appears in a request body. *)
Definition wire_message (m : Message) : jsval := JSON_stringify (message_value m).

(** The [messages] array of a request body. *)
Definition body_messages (req : request) : list jsval :=
  match body req with
  | VObj props =>
      match assoc "messages" props with
      | Some (VArr l) => l
      | _ => []
      end
  | _ => []
  end.

(** The field [error.message] of a response body, when the body is an
    object holding an object [error] that has a [message] entry. *)
Definition nested_error_message (body : jsval) : option jsval :=
  match body with
  | VObj props =>
      match assoc "error" props with
      | Some (VObj eprops) => assoc "message" eprops
      | _ => None
      end
  | _ => None
  end.

(** [null] and [undefined], on which a property read throws. *)
Definition nullish (v : jsval) : bool :=
  match v with
  | VUndefined | VNull => true
  | _ => false
  end.

(** The nested field is absent, falsy, or a string: the cases in which
    the message of the error thrown for a non-2xx response involves no
    conversion of the field to a string. *)
Definition field_is_text_or_falsy (body : jsval) : bool :=
  match nested_error_message body with
  | Some (VStr _) => true
  | Some v => negb (truthy v)
  | None => true
  end.

(** The message of the error thrown for a non-2xx response whose body
    parsed to [body], in those cases. *)
Definition failure_message (body : jsval) : string :=
  match nested_error_message body with
  | Some (VStr s) => if String.eqb s "" then "API request failed" else s
  | _ => "API request failed"
  end.

(** A submit that goes as far as a fetch: accepted by the guard, with one
    of the two provider tags. *)
Definition sends_request (st : state) : bool :=
  negb (submit_blocked st) &&
  (String.eqb (provider st) "anthropic" || String.eqb (provider st) "openai").

(** The conversation as it stood, new user Message included, at each
    submit of [evs] that went as far as a fetch, oldest first. *)
Fixpoint histories (evs : list event) (w : world) : list (list Message) :=
  match evs with
  | [] => []
  | ev :: rest =>
      (match ev with
       | Submit => if sends_request (ui w) then [newMessages_of (ui w)] else []
       | _ => []
       end) ++ histories rest (step ev w)
  end.

(** The role the conversation has at position [i]: the greeting is the
    assistant's, then user and assistant take turns. *)
Definition role_at (i : nat) : string :=
  if Nat.even i then "assistant" else "user".

(** The synthetic first Message. *)
Definition greeting (agentDescription : string) : Message :=
  {| role := "assistant";
     content := VStr ("Hello! I'm " +:+ agentDescription
                      +:+ ". How can I help you today?") |}.

(** A continuation in flight that, however the fetch settles, appends
    one assistant Message and clears the loading flag. *)
Definition closing (k : fetch_outcome -> async state unit) : Prop :=
  forall o, exists c, k o = finish (lift c).

(** A POST to one of the two provider endpoints. *)
Definition to_provider (req : request) : bool :=
  String.eqb (method req) "POST" &&
  (String.eqb (url req) "https://api.anthropic.com/v1/messages" ||
   String.eqb (url req) "https://api.openai.com/v1/chat/completions").

(** A request that replays a non-empty prefix of the conversation [ms],
    the last Message of that prefix being a user's. *)
Definition replays (ms : list Message) (req : request) : Prop :=
  exists earlier user,
    (earlier ++ [user]) `prefix_of` ms /\
    role user = "user" /\
    body_messages req = List.map wire_message (earlier ++ [user]).

(** What holds of the page after any sequence of events. *)
Record page_invariant (w : world) : Prop := mkPageInvariant {
  inv_roles : forall i m, messages (ui w) !! i = Some m -> role m = role_at i;
  inv_length : Nat.even (length (messages (ui w))) = isLoading (ui w);
  inv_flight : if isLoading (ui w)
               then exists k, inflight w = [k] /\ closing k
               else inflight w = [];
  inv_sent : Forall (fun req => to_provider req = true /\
                                replays (messages (ui w)) req) (sent w)
}.

Definition is_settle (ev : event) : bool :=
  match ev with
  | Settle _ _ => true
  | _ => false
  end.

(** Example data. *)
Definition description : string := "A sarcastic cooking assistant".

(** A history holding an assistant Message without content, as left by
    a 2xx answer whose first element has no text. *)
Definition history_with_gap : list Message :=
  [ greeting description;
    {| role := "user"; content := VStr "hello" |};
    {| role := "assistant"; content := VUndefined |};
    {| role := "user"; content := VStr "next" |} ].

Definition padded_key_state : state :=
  setProvider "openai" (setApiKey " sk-ant-x " (initial description)).

Definition stored_anthropic : gmap string string :=
  <["ai_provider" := "anthropic"]> (<["ai_api_key" := "sk-ant-x"]> ∅).

Definition stored_openai : gmap string string :=
  <["ai_provider" := "openai"]> (<["ai_api_key" := "sk-x"]> ∅).

Definition stored_other : gmap string string :=
  <["ai_provider" := "mistral"]> (<["ai_api_key" := "sk-x"]> ∅).

(** The page of scenario A and B: key stored, "hello" typed. *)
Definition hello_world : world :=
  step (ChangeInput "hello") (start description stored_anthropic).

Definition hello_openai : world :=
  step (ChangeInput "hello") (start description stored_openai).

Definition hello_other : world :=
  step (ChangeInput " hello ") (start description stored_other).

Definition response_200 : response :=
  {| status := 200;
     json := Normal (VObj [("content", VArr [VObj [("text", VStr "hi there")]])]) |}.

Definition response_200_openai : response :=
  {| status := 200;
     json := Normal (VObj [("choices",
               VArr [VObj [("message", VObj [("content", VStr "hi there")])]])]) |}.

Definition response_401 : response :=
  {| status := 401;
     json := Normal (VObj [("error", VObj [("message", VStr "bad key")])]) |}.

(** A gateway's answer whose body is an HTML page; the text of the
    parser's error is the engine's. *)
Definition response_502_html : response :=
  {| status := 502;
     json := Throw (mkError "Unexpected token '<' is not valid JSON") |}.

Definition response_200_no_text : response :=
  {| status := 200;
     json := Normal (VObj [("content", VArr [VObj [("type", VStr "tool_use")]])]) |}.

Definition response_200_openai_no_content : response :=
  {| status := 200;
     json := Normal (VObj [("choices",
               VArr [VObj [("message", VObj [("role", VStr "assistant")])]])]) |}.

Definition response_400_empty_message : response :=
  {| status := 400;
     json := Normal (VObj [("error", VObj [("message", VStr "")])]) |}.


(* ===================================================================== *)
(** * Facts about the JavaScript fragment *)
(* ===================================================================== *)

Section Trim.

Lemma trimEnd_empty (s : string) : trimEnd s = "" <-> blank s = true.
Proof.
  induction s as [|c rest IH]; simpl; [tauto|].
  destruct (trimEnd rest) as [|c' kept] eqn:E.
  - destruct (is_white_space c); simpl.
    + tauto.
    + split; discriminate.
  - split; [discriminate|].
    intros H. apply andb_true_iff in H as [_ H].
    apply IH in H. discriminate.
Qed.

Lemma blank_trimStart (s : string) : blank (trimStart s) = blank s.
Proof.
  induction s as [|c rest IH]; simpl; [reflexivity|].
  destruct (is_white_space c) eqn:E; simpl; [exact IH|].
  now rewrite E.
Qed.

(** The guard [!s.trim()] holds exactly for the blank strings. *)
Lemma trim_empty (s : string) : trim s = "" <-> blank s = true.
Proof. unfold trim. rewrite trimEnd_empty, blank_trimStart. tauto. Qed.

Lemma trim_eqb_blank (s : string) : String.eqb (trim s) "" = blank s.
Proof.
  destruct (blank s) eqn:E.
  - apply String.eqb_eq, trim_empty, E.
  - apply String.eqb_neq. intros H. apply trim_empty in H. congruence.
Qed.

End Trim.

(* ===================================================================== *)
(** * The preference store *)
(* ===================================================================== *)

Section Preferences.

Implicit Types (st : state) (ls : gmap string string).

Lemma stored_truthy_Some (s : string) :
  stored_truthy (Some s) = negb (String.eqb s "").
Proof. reflexivity. Qed.

Lemma saveSettings_storage st ls :
  blank (apiKey st) = false ->
  (saveSettings st ls).2 =
    <["ai_provider" := provider st]> (<["ai_api_key" := trim (apiKey st)]> ls).
Proof.
  intros Hb. unfold saveSettings. rewrite trim_eqb_blank, Hb. reflexivity.
Qed.

(** A blank key makes save do nothing at all. *)
Lemma saveSettings_blank st ls :
  blank (apiKey st) = true -> saveSettings st ls = (st, ls).
Proof.
  intros Hb. unfold saveSettings. rewrite trim_eqb_blank, Hb. reflexivity.
Qed.

Lemma load_absent st ls :
  ls !! "ai_api_key" = None -> ls !! "ai_provider" = None -> load ls st = st.
Proof. intros Hk Hp. unfold load, getItem. rewrite Hk, Hp. reflexivity. Qed.

Lemma load_present st ls (k p : string) :
  ls !! "ai_api_key" = Some k -> ls !! "ai_provider" = Some p ->
  String.eqb k "" = false -> String.eqb p "" = false ->
  apiKey (load ls st) = k /\ provider (load ls st) = p.
Proof.
  intros Hk Hp Ek Ep. unfold load, getItem. rewrite Hk, Hp. simpl.
  rewrite Ek, Ep. simpl. split; reflexivity.
Qed.

End Preferences.

(* ===================================================================== *)
(** * Tasks *)
(* ===================================================================== *)

Section Tasks.

Context {S : Type}.

Lemma pure_lift {A} (c : completion A) : pure (lift (S:=S) c).
Proof. destruct c; exact I. Qed.

Lemma pure_bind {A B} (t : async S A) (f : A -> async S B) :
  pure t -> (forall a, pure (f a)) -> pure (t ≫= f).
Proof.
  induction t as [a|e|u k IH|req k IH]; simpl; intros Ht Hf.
  - apply Hf.
  - exact I.
  - destruct Ht.
  - intros o. apply IH; [apply Ht | exact Hf].
Qed.

Lemma pure_await_fetch (req : request) : pure (await_fetch (S:=S) req).
Proof. intros [r|e]; exact I. Qed.

Lemma settled_lift {A} (c : completion A) : settled (lift (S:=S) c).
Proof. exists c. reflexivity. Qed.

Lemma settled_bind {A B} (t : async S A) (f : A -> async S B) :
  settled t -> (forall a, settled (f a)) -> settled (t ≫= f).
Proof.
  intros [c ->] Hf. destruct c as [a|e]; simpl.
  - apply Hf.
  - exists (Throw e). reflexivity.
Qed.

Lemma settled_pure {A} (t : async S A) : settled t -> pure t.
Proof. intros [c ->]. apply pure_lift. Qed.

(** A pure task leaves the state alone. *)
Lemma exec_pure {A} net (t : async S A) (s : S) :
  pure t -> (exec net t s).1.1 = s.
Proof.
  induction t as [a|e|u k IH|req k IH]; simpl; intros Ht; try reflexivity.
  - destruct Ht.
  - specialize (IH (net req) (Ht _)).
    destruct (exec net (k (net req)) s) as [[s' c] reqs]. exact IH.
Qed.

Lemma exec_lift {A} net (c : completion A) (s : S) :
  exec net (lift c) s = (s, c, []).
Proof. destruct c; reflexivity. Qed.

(** A task suspended on one fetch whose continuation settles at once
    issues that request and nothing else, and completes as the
    continuation does. *)
Lemma exec_one_fetch {A} net req (k : fetch_outcome -> async S A) c (s : S) :
  k (net req) = lift c ->
  exec net (Fetch req k) s = (s, c, [req]).
Proof. intros Hk. simpl. rewrite Hk, exec_lift. reflexivity. Qed.

End Tasks.

Section PreferenceRoundTrip.

Implicit Types (st : state) (ls : gmap string string).

(** C3, as amended.  For every apiKey whose trimmed form is non-empty and
    every non-empty provider value, save followed by load (into any
    component state, in particular a freshly mounted one) reads back the
    TRIMMED apiKey together with the provider; the pair passed to save is
    read back unchanged exactly when the apiKey carries no leading or
    trailing white space. *)
Theorem save_then_load_trimmed st ls st0 (desc : string) :
  blank (apiKey st) = false ->
  String.eqb (provider st) "" = false ->
  let ls' := (saveSettings st ls).2 in
  (apiKey (load ls' st0) = trim (apiKey st) /\
   provider (load ls' st0) = provider st) /\
  (apiKey (mount desc ls') = trim (apiKey st) /\
   provider (mount desc ls') = provider st) /\
  (apiKey (load ls' st0) = apiKey st <-> trim (apiKey st) = apiKey st).
Proof.
  intros Hb Hp ls'.
  assert (Hk : String.eqb (trim (apiKey st)) "" = false)
    by (rewrite trim_eqb_blank; exact Hb).
  assert (Hload : forall s, apiKey (load ls' s) = trim (apiKey st) /\
                            provider (load ls' s) = provider st).
  { intros s. apply load_present; try assumption.
    - subst ls'. rewrite saveSettings_storage by exact Hb.
      rewrite lookup_insert_ne by discriminate. apply lookup_insert_eq.
    - subst ls'. rewrite saveSettings_storage by exact Hb.
      apply lookup_insert_eq. }
  split; [apply Hload|]. split.
  - unfold mount, after_render, show_settings_effect. simpl.
    destruct (Hload (initial desc)) as [Ha Hq].
    assert (Hs : forall b s, apiKey (setShowSettings b s) = apiKey s /\
                             provider (setShowSettings b s) = provider s)
      by (intros; split; reflexivity).
    destruct (Hs true (load ls' (initial desc))) as [Hs1 Hs2].
    repeat match goal with
           | |- context [if ?c then _ else _] => destruct c
           end; simpl; rewrite ?Ha, ?Hq; split; reflexivity.
  - destruct (Hload st0) as [Ha _]. rewrite Ha. tauto.
Qed.

Lemma save_then_load_trimmed_witness :
  let st := padded_key_state in
  let st0 := initial description in
  let ls' := (saveSettings st ∅).2 in
  (apiKey (load ls' st0) = trim (apiKey st) /\
   provider (load ls' st0) = provider st) /\
  (apiKey (mount description ls') = trim (apiKey st) /\
   provider (mount description ls') = provider st) /\
  (apiKey (load ls' st0) = apiKey st <-> trim (apiKey st) = apiKey st).
Proof.
  apply (save_then_load_trimmed padded_key_state ∅
           (initial description)
           description); reflexivity.
Defined.

(** C3 as stated fails: a key typed with surrounding spaces passes the
    non-blank test, and what is read back is not the key that was saved. *)
Lemma save_then_load_not_exact :
  let st := padded_key_state in
  let ls' := (saveSettings st ∅).2 in
  blank (apiKey st) = false /\
  apiKey st = " sk-ant-x " /\
  apiKey (load ls' (initial description)) = "sk-ant-x" /\
  apiKey (load ls' (initial description)) <> apiKey st.
Proof. vm_compute. repeat split; discriminate. Qed.

(** C4.  After clear, whatever was stored before, both entries are absent
    from localStorage; load then changes nothing, and the preferences are
    the empty ones (no apiKey, the default provider), in the running
    component as well as in a freshly mounted one. *)
Theorem clear_then_load st ls st0 (desc : string) :
  let st' := (clearSettings st ls).1 in
  let ls' := (clearSettings st ls).2 in
  getItem "ai_api_key" ls' = None /\
  getItem "ai_provider" ls' = None /\
  load ls' st0 = st0 /\
  apiKey (load ls' st') = "" /\ provider (load ls' st') = "anthropic" /\
  apiKey (mount desc ls') = "" /\ provider (mount desc ls') = "anthropic".
Proof.
  intros st' ls'.
  assert (Hk : ls' !! "ai_api_key" = None).
  { subst ls'. unfold clearSettings, removeItem. simpl.
    rewrite lookup_delete_ne by discriminate. apply lookup_delete_eq. }
  assert (Hp : ls' !! "ai_provider" = None).
  { subst ls'. unfold clearSettings, removeItem. simpl. apply lookup_delete_eq. }
  repeat split; try assumption.
  - apply load_absent; assumption.
  - rewrite load_absent by assumption. reflexivity.
  - rewrite load_absent by assumption. reflexivity.
  - unfold mount. rewrite load_absent by assumption. reflexivity.
  - unfold mount. rewrite load_absent by assumption. reflexivity.
Qed.

End PreferenceRoundTrip.

(* ===================================================================== *)
(** * The adapters and the turn *)
(* ===================================================================== *)

Section Adapters.

Implicit Types (st : state) (h : list Message).

Lemma callAnthropicAPI_fetch st h :
  exists req k, callAnthropicAPI st h = Fetch req k /\ forall o, settled (k o).
Proof.
  eexists _, _. split; [reflexivity|].
  intros [r|e]; simpl; [|exists (Throw e); reflexivity].
  destruct (negb (ok r)); repeat (apply settled_bind; [apply settled_lift|intros]);
    apply settled_lift.
Qed.

Lemma callOpenAIAPI_fetch st h :
  exists req k, callOpenAIAPI st h = Fetch req k /\ forall o, settled (k o).
Proof.
  eexists _, _. split; [reflexivity|].
  intros [r|e]; simpl; [|exists (Throw e); reflexivity].
  destruct (negb (ok r)); repeat (apply settled_bind; [apply settled_lift|intros]);
    apply settled_lift.
Qed.

(** The dispatch either suspends on exactly one fetch, or (for a provider
    tag that is neither "anthropic" nor "openai") returns [undefined]
    without any. *)
Lemma adapter_call_cases st :
  (exists req k, adapter_call st = Fetch req k /\ forall o, settled (k o)) \/
  (adapter_call st = Resolve VUndefined /\
   String.eqb (provider st) "anthropic" = false /\
   String.eqb (provider st) "openai" = false).
Proof.
  unfold adapter_call.
  destruct (String.eqb (provider st) "anthropic"); [left; apply callAnthropicAPI_fetch|].
  destruct (String.eqb (provider st) "openai"); [left; apply callOpenAIAPI_fetch|].
  right. repeat split.
Qed.

Lemma adapter_call_pure st : pure (adapter_call st).
Proof.
  destruct (adapter_call_cases st) as [(req & k & -> & Hk)|[-> _]]; [|exact I].
  intros o. apply settled_pure, Hk.
Qed.

End Adapters.

Section Turn.

Implicit Types (st : state) (w : world).

Lemma handleSubmit_blocked st :
  submit_blocked st = true -> handleSubmit st = Resolve tt.
Proof. intros H. unfold handleSubmit. rewrite H. reflexivity. Qed.

Lemma handleSubmit_accepted st :
  submit_blocked st = false ->
  handleSubmit st =
    Update (setMessages (fun _ => newMessages_of st))
      (Update (setInput "")
         (Update (setIsLoading true) (finish (adapter_call st)))).
Proof. intros H. unfold handleSubmit. rewrite H. reflexivity. Qed.

(** The guard, in the words of the claims. *)
Lemma submit_blocked_iff st :
  submit_blocked st = true <->
  blank (input st) = true \/ isLoading st = true \/ apiKey st = "".
Proof.
  unfold submit_blocked. rewrite !orb_true_iff, trim_eqb_blank, String.eqb_eq.
  tauto.
Qed.

Lemma submit_accepted_iff st :
  submit_blocked st = false <->
  blank (input st) = false /\ isLoading st = false /\ apiKey st <> "".
Proof.
  unfold submit_blocked. rewrite !orb_false_iff, trim_eqb_blank, String.eqb_neq.
  tauto.
Qed.

Lemma finish_lift (c : completion jsval) :
  finish (lift c) =
    Update (setMessages (fun prev =>
              prev ++ [ {| role := "assistant"; content := assistant_content c |} ]))
      (Update (setIsLoading false) (Resolve tt)).
Proof. destruct c; reflexivity. Qed.

Lemma finish_Fetch req k :
  finish (Fetch req k) = Fetch req (fun o => finish (k o)).
Proof. reflexivity. Qed.

(** Running the [try]/[catch]/[finally] around a pure reply task: the
    handler always completes normally, having appended one assistant
    Message and cleared the loading flag. *)
Lemma exec_finish net (t : async state jsval) st :
  pure t ->
  exec net (finish t) st =
    (replied (result_of net t st) st, Normal tt, requests_of net t st).
Proof.
  unfold result_of, requests_of.
  induction t as [a|e|u k IH|req k IH]; intros Ht.
  - reflexivity.
  - reflexivity.
  - destruct Ht.
  - rewrite finish_Fetch. simpl exec. rewrite (IH (net req) (Ht _)).
    destruct (exec net (k (net req)) st) as [[s' c] reqs]. reflexivity.
Qed.

Lemma exec_handleSubmit net st :
  submit_blocked st = false ->
  exec net (handleSubmit st) st =
    (replied (result_of net (adapter_call st) (submitted st)) (submitted st),
     Normal tt,
     requests_of net (adapter_call st) (submitted st)).
Proof.
  intros H. rewrite (handleSubmit_accepted _ H). simpl exec.
  apply (exec_finish net (adapter_call st) (submitted st)), adapter_call_pure.
Qed.

Lemma after_render_same_key (before after : state) :
  apiKey after = apiKey before -> after_render before after = after.
Proof. intros E. unfold after_render. rewrite E, String.eqb_refl. reflexivity. Qed.

Lemma with_ui_id w : with_ui (fun st => st) w = w.
Proof. destruct w; reflexivity. Qed.

Lemma step_same_key ev w :
  apiKey (ui (handle ev w)) = apiKey (ui w) -> step ev w = handle ev w.
Proof.
  intros E. unfold step, with_ui. rewrite after_render_same_key by exact E.
  destruct (handle ev w); reflexivity.
Qed.

Lemma step_Submit_blocked w : submit_blocked (ui w) = true -> step Submit w = w.
Proof.
  intros Hb. rewrite step_same_key; unfold handle;
    rewrite (handleSubmit_blocked _ Hb); reflexivity.
Qed.

Lemma drive_finish_lift (c : completion jsval) w :
  drive (finish (lift c)) w = with_ui (replied c) w.
Proof. rewrite finish_lift. reflexivity. Qed.

(** An accepted submit whose dispatch suspends on a fetch. *)
Lemma step_Submit_fetch w req k :
  submit_blocked (ui w) = false ->
  adapter_call (ui w) = Fetch req k ->
  step Submit w =
    mkWorld (submitted (ui w)) (localStorage w)
            (inflight w ++ [fun o => finish (k o)]) (sent w ++ [req]).
Proof.
  intros Hb Hk.
  assert (Hh : handle Submit w =
    mkWorld (submitted (ui w)) (localStorage w)
            (inflight w ++ [fun o => finish (k o)]) (sent w ++ [req])).
  { unfold handle. rewrite (handleSubmit_accepted _ Hb), Hk. reflexivity. }
  rewrite step_same_key; rewrite Hh; reflexivity.
Qed.

(** An accepted submit whose dispatch returns at once. *)
Lemma step_Submit_now w (c : completion jsval) :
  submit_blocked (ui w) = false ->
  adapter_call (ui w) = lift c ->
  step Submit w = with_ui (fun st => replied c (submitted st)) w.
Proof.
  intros Hb Hk.
  assert (Hh : handle Submit w = with_ui (fun st => replied c (submitted st)) w).
  { unfold handle. rewrite (handleSubmit_accepted _ Hb), Hk.
    simpl drive. rewrite drive_finish_lift. reflexivity. }
  rewrite step_same_key; rewrite Hh; reflexivity.
Qed.

(** The only fetch in flight settles with a continuation that has
    returned or thrown. *)
Lemma step_Settle_only st ls reqs (k : fetch_outcome -> async state jsval) o c :
  k o = lift c ->
  step (Settle 0 o) (mkWorld st ls [fun o => finish (k o)] reqs) =
    mkWorld (replied c st) ls [] reqs.
Proof.
  intros Hk.
  assert (Hh : handle (Settle 0 o) (mkWorld st ls [fun o => finish (k o)] reqs) =
               mkWorld (replied c st) ls [] reqs).
  { unfold handle. simpl. rewrite Hk, drive_finish_lift. reflexivity. }
  rewrite step_same_key; rewrite Hh; reflexivity.
Qed.

End Turn.

Section Wire.

Implicit Types (st : state) (h : list Message) (m : Message).

(** A Message as written in a request body, case by case. *)
Lemma wire_message_spelled m :
  wire_message m =
    match content m with
    | VUndefined => VObj [("role", VStr (role m))]
    | VStr s => VObj [("role", VStr (role m)); ("content", VStr s)]
    | c => VObj [("role", VStr (role m)); ("content", JSON_stringify c)]
    end.
Proof.
  unfold wire_message, message_value. destruct (content m); reflexivity.
Qed.

Lemma stringify_message_array h :
  JSON_stringify (VArr (List.map message_value h)) = VArr (List.map wire_message h).
Proof.
  simpl. f_equal. rewrite List.map_map. apply List.map_ext. reflexivity.
Qed.

(** The mapping [msg => ({ role: msg.role, content: msg.content })]
    copies every Message. *)
Lemma messageHistory_copy st : messageHistory_of st = newMessages_of st.
Proof.
  unfold messageHistory_of. rewrite <- (List.map_id (newMessages_of st)) at 2.
  apply List.map_ext. intros [r c]. reflexivity.
Qed.

(** The request of the first adapter, field by field. *)
Lemma callAnthropicAPI_request st h :
  exists k, callAnthropicAPI st h =
    Fetch {| url := "https://api.anthropic.com/v1/messages";
             method := "POST";
             headers := [ ("Content-Type", "application/json");
                          ("x-api-key", apiKey st);
                          ("anthropic-version", "2023-06-01") ];
             body := VObj [ ("model", VStr "claude-3-5-sonnet-20241022");
                            ("max_tokens", VNum 2048);
                            ("messages", VArr (List.map wire_message h)) ] |} k
    /\ forall o, settled (k o).
Proof.
  destruct (callAnthropicAPI_fetch st h) as (req & k & E & Hk).
  exists k. split; [|exact Hk]. rewrite E.
  unfold callAnthropicAPI in E. simpl in E. injection E as <- _.
  rewrite <- stringify_message_array. reflexivity.
Qed.

Lemma callOpenAIAPI_request st h :
  exists k, callOpenAIAPI st h =
    Fetch {| url := "https://api.openai.com/v1/chat/completions";
             method := "POST";
             headers := [ ("Content-Type", "application/json");
                          ("Authorization", "Bearer " +:+ apiKey st) ];
             body := VObj [ ("model", VStr "gpt-4");
                            ("messages", VArr (List.map wire_message h)) ] |} k
    /\ forall o, settled (k o).
Proof.
  destruct (callOpenAIAPI_fetch st h) as (req & k & E & Hk).
  exists k. split; [|exact Hk]. rewrite E.
  unfold callOpenAIAPI in E. simpl in E. injection E as <- _.
  rewrite <- stringify_message_array. reflexivity.
Qed.

(** Whatever the dispatch sends carries the whole of [newMessages]. *)
Lemma adapter_call_body st req k :
  adapter_call st = Fetch req k ->
  body_messages req = List.map wire_message (newMessages_of st).
Proof.
  unfold adapter_call. rewrite messageHistory_copy.
  destruct (String.eqb (provider st) "anthropic").
  - destruct (callAnthropicAPI_request st (newMessages_of st)) as (k' & -> & _).
    intros E. injection E as <- _. reflexivity.
  - destruct (String.eqb (provider st) "openai"); [|discriminate].
    destruct (callOpenAIAPI_request st (newMessages_of st)) as (k' & -> & _).
    intros E. injection E as <- _. reflexivity.
Qed.

End Wire.

(* ===================================================================== *)
(** * Submitting a turn *)
(* ===================================================================== *)

Section Submit.

Implicit Types (st : state) (w : world) (net : request -> fetch_outcome).

(** A pure task completes the same way from every state. *)
Lemma result_of_pure {A} net (t : async state A) st st' :
  pure t -> result_of net t st = result_of net t st'.
Proof.
  unfold result_of.
  induction t as [a|e|u k IH|req k IH]; simpl; intros Ht; try reflexivity.
  - destruct Ht.
  - specialize (IH (net req) (Ht _)).
    destruct (exec net (k (net req)) st) as [[s1 c1] r1].
    destruct (exec net (k (net req)) st') as [[s2 c2] r2]. exact IH.
Qed.

Lemma requests_of_pure {A} net (t : async state A) st st' :
  pure t -> requests_of net t st = requests_of net t st'.
Proof.
  unfold requests_of.
  induction t as [a|e|u k IH|req k IH]; simpl; intros Ht; try reflexivity.
  - destruct Ht.
  - specialize (IH (net req) (Ht _)).
    destruct (exec net (k (net req)) st) as [[s1 c1] r1].
    destruct (exec net (k (net req)) st') as [[s2 c2] r2].
    simpl in *. congruence.
Qed.

Lemma result_of_one_fetch {A} (o : fetch_outcome) req
    (k : fetch_outcome -> async state A) c st :
  k o = lift c -> result_of (fun _ => o) (Fetch req k) st = c.
Proof.
  intros Hk. unfold result_of.
  rewrite (exec_one_fetch (fun _ => o) req k c st Hk). reflexivity.
Qed.

Lemma messages_replied c st :
  messages (replied c st) =
    messages st ++ [ {| role := "assistant"; content := assistant_content c |} ].
Proof. reflexivity. Qed.

Lemma messages_submitted st :
  messages (submitted st) = messages st ++ [userMessage_of st].
Proof. reflexivity. Qed.

Lemma messages_turn c st :
  messages (replied c (submitted st)) =
    messages st ++ [ userMessage_of st;
                     {| role := "assistant"; content := assistant_content c |} ].
Proof. rewrite messages_replied, messages_submitted, <- app_assoc. reflexivity. Qed.

(** C2.  In every state where the input is blank (empty or white space
    only), or a request is in flight, or the apiKey is empty, submit
    changes nothing: the page is the same afterwards, so the message list
    is the same sequence and no request has been issued or queued; run on
    its own, the handler returns at once without a fetch. *)
Theorem submit_noop_when_blocked w net :
  blank (input (ui w)) = true \/ isLoading (ui w) = true \/ apiKey (ui w) = "" ->
  step Submit w = w /\
  messages (ui (step Submit w)) = messages (ui w) /\
  sent (step Submit w) = sent w /\
  inflight (step Submit w) = inflight w /\
  exec net (handleSubmit (ui w)) (ui w) = (ui w, Normal tt, []).
Proof.
  intros H. apply submit_blocked_iff in H.
  assert (E : step Submit w = w).
  { rewrite step_same_key; unfold handle; rewrite (handleSubmit_blocked _ H);
      reflexivity. }
  rewrite E, (handleSubmit_blocked _ H). repeat split.
Qed.

Lemma submit_noop_when_blocked_witness :
  let w := step (ChangeInput "   ") (start description stored_anthropic) in
  let net := fun _ : request => Responded response_200 in
  step Submit w = w /\
  messages (ui (step Submit w)) = messages (ui w) /\
  sent (step Submit w) = sent w /\
  inflight (step Submit w) = inflight w /\
  exec net (handleSubmit (ui w)) (ui w) = (ui w, Normal tt, []).
Proof.
  apply (submit_noop_when_blocked
           (step (ChangeInput "   ") (start description stored_anthropic))
           (fun _ => Responded response_200)).
  left. reflexivity.
Defined.



(** C9.  With a provider tag that is neither "anthropic" nor "openai", an
    accepted submit appends the user Message and then an assistant Message
    whose content is [undefined]; no request is issued or queued, the
    handler completes normally (nothing is thrown, the error text is not
    produced), and the loading flag is back to false. *)
Theorem unknown_provider_turn w net :
  submit_blocked (ui w) = false ->
  String.eqb (provider (ui w)) "anthropic" = false ->
  String.eqb (provider (ui w)) "openai" = false ->
  let user := {| role := "user"; content := VStr (input (ui w)) |} in
  let w' := step Submit w in
  messages (ui w') =
    messages (ui w) ++ [user; {| role := "assistant"; content := VUndefined |}] /\
  sent w' = sent w /\
  inflight w' = inflight w /\
  isLoading (ui w') = false /\
  exec net (handleSubmit (ui w)) (ui w) = (ui w', Normal tt, []).
Proof.
  intros Hb Ha Ho user w'.
  assert (Hk : adapter_call (ui w) = lift (Normal VUndefined)).
  { unfold adapter_call. rewrite Ha, Ho. reflexivity. }
  assert (E : w' = with_ui (fun st => replied (Normal VUndefined) (submitted st)) w)
    by (apply step_Submit_now; assumption).
  rewrite E. unfold with_ui. simpl ui. simpl sent. simpl inflight.
  rewrite messages_turn. repeat split.
  rewrite (exec_handleSubmit net _ Hb), Hk. reflexivity.
Qed.

Lemma unknown_provider_turn_witness :
  let w := hello_other in
  let net := fun _ : request => Responded response_200 in
  let user := {| role := "user"; content := VStr (input (ui w)) |} in
  let w' := step Submit w in
  messages (ui w') =
    messages (ui w) ++ [user; {| role := "assistant"; content := VUndefined |}] /\
  sent w' = sent w /\
  inflight w' = inflight w /\
  isLoading (ui w') = false /\
  exec net (handleSubmit (ui w)) (ui w) = (ui w', Normal tt, []).
Proof.
  apply (unknown_provider_turn hello_other (fun _ => Responded response_200));
    reflexivity.
Defined.

(** C1.  For every accepted submit (input not blank, apiKey not empty, no
    request in flight):
    - run to completion against any network, the handler completes
      normally and leaves the conversation longer by exactly two Messages,
      the user Message holding the input and then one assistant Message,
      whose content is the returned text if the reply succeeded and, if
      it failed with an error, the text "Error: <the error's message>.
      Please check your API key in settings."; the loading flag is false
      again;
    - in the event loop, when the provider is one of the two adapters, the
      user Message is appended and exactly one request issued by the
      submit itself, and the assistant Message is appended when that
      request settles, whichever way. *)
Theorem turn_appends_user_then_assistant w net :
  submit_blocked (ui w) = false ->
  inflight w = [] ->
  let st := ui w in
  let user := {| role := "user"; content := VStr (input st) |} in
  let assistant c :=
    {| role := "assistant";
       content :=
         match c with
         | Normal text => text
         | Throw error =>
             VStr ("Error: " +:+ message error
                   +:+ ". Please check your API key in settings.")
         end |} in
  (exists st',
     exec net (handleSubmit st) st =
       (st', Normal tt, requests_of net (adapter_call st) st) /\
     messages st' =
       messages st ++ [user; assistant (result_of net (adapter_call st) st)] /\
     length (messages st') = length (messages st) + 2 /\
     isLoading st' = false) /\
  (provider st = "anthropic" \/ provider st = "openai" ->
   exists req k,
     step Submit w =
       mkWorld (submitted st) (localStorage w) [k] (sent w ++ [req]) /\
     messages (submitted st) = messages st ++ [user] /\
     isLoading (submitted st) = true /\
     forall o,
       let w2 := step (Settle 0 o) (step Submit w) in
       messages (ui w2) =
         messages st
           ++ [user; assistant (result_of (fun _ => o) (adapter_call st) st)] /\
       isLoading (ui w2) = false /\
       inflight w2 = [] /\
       sent w2 = sent w ++ [req]).
Proof.
  intros Hb Hi st user assistant. split.
  - exists (replied (result_of net (adapter_call st) st) (submitted st)).
    split; [|split; [|split]].
    + rewrite (exec_handleSubmit net st Hb).
      rewrite (result_of_pure net _ (submitted st) st (adapter_call_pure st)).
      rewrite (requests_of_pure net _ (submitted st) st (adapter_call_pure st)).
      reflexivity.
    + apply messages_turn.
    + rewrite messages_turn, length_app. reflexivity.
    + reflexivity.
  - intros Hp.
    destruct (adapter_call_cases st) as [(req & k & Hk & Hs)|(_ & Ha & Ho)].
    2: { destruct Hp as [Hp|Hp]; rewrite Hp in *; discriminate. }
    exists req, (fun o => finish (k o)).
    assert (E : step Submit w =
                mkWorld (submitted st) (localStorage w)
                        [fun o => finish (k o)] (sent w ++ [req])).
    { rewrite (step_Submit_fetch w req k Hb Hk), Hi. reflexivity. }
    split; [exact E|]. split; [reflexivity|]. split; [reflexivity|].
    intros o w2. subst w2. rewrite E.
    destruct (Hs o) as [c Hc].
    rewrite (step_Settle_only _ _ _ k o c Hc).
    rewrite Hk, (result_of_one_fetch o req k c st Hc).
    cbn [ui inflight sent].
    rewrite messages_turn. repeat split.
Qed.

Lemma turn_appends_user_then_assistant_witness :
  let w := hello_world in
  let net := fun _ : request => Responded response_200 in
  let st := ui w in
  let user := {| role := "user"; content := VStr (input st) |} in
  let assistant c :=
    {| role := "assistant";
       content :=
         match c with
         | Normal text => text
         | Throw error =>
             VStr ("Error: " +:+ message error
                   +:+ ". Please check your API key in settings.")
         end |} in
  (exists st',
     exec net (handleSubmit st) st =
       (st', Normal tt, requests_of net (adapter_call st) st) /\
     messages st' =
       messages st ++ [user; assistant (result_of net (adapter_call st) st)] /\
     length (messages st') = length (messages st) + 2 /\
     isLoading st' = false) /\
  (provider st = "anthropic" \/ provider st = "openai" ->
   exists req k,
     step Submit w =
       mkWorld (submitted st) (localStorage w) [k] (sent w ++ [req]) /\
     messages (submitted st) = messages st ++ [user] /\
     isLoading (submitted st) = true /\
     forall o,
       let w2 := step (Settle 0 o) (step Submit w) in
       messages (ui w2) =
         messages st
           ++ [user; assistant (result_of (fun _ => o) (adapter_call st) st)] /\
       isLoading (ui w2) = false /\
       inflight w2 = [] /\
       sent w2 = sent w ++ [req]).
Proof.
  apply (turn_appends_user_then_assistant hello_world
           (fun _ => Responded response_200)); reflexivity.
Defined.

End Submit.

(* ===================================================================== *)
(** * What the adapters send and what they make of the answer *)
(* ===================================================================== *)

Section Replies.

Implicit Types (st : state) (h : list Message) (r : response).

Lemma throw_api_error_message (body : jsval) :
  nullish body = false ->
  field_is_text_or_falsy body = true ->
  throw_api_error body = Throw (mkError (failure_message body)).
Proof.
  intros Hn. unfold throw_api_error, field_is_text_or_falsy, failure_message,
    nested_error_message.
  destruct body as [| |b|n|s|elems|props]; try discriminate; try reflexivity.
  simpl. destruct (assoc "error" props) as [inner|]; [|reflexivity].
  destruct inner as [| |b|n|s|elems|eprops]; try reflexivity.
  simpl. destruct (assoc "message" eprops) as [v|]; [|reflexivity].
  simpl. unfold or_else.
  destruct v as [| |b|n|s|elems'|props']; simpl; try reflexivity;
    try discriminate.
  - destruct b; [discriminate|reflexivity].
  - destruct (n =? 0)%Z; [reflexivity|discriminate].
  - destruct (String.eqb s ""); reflexivity.
Qed.

(** The continuation of the first adapter, on a response. *)
Lemma callAnthropicAPI_failure st h req k r body :
  callAnthropicAPI st h = Fetch req k ->
  ok r = false -> json r = Normal body ->
  k (Responded r) = lift (throw_api_error body).
Proof.
  intros E Hok Hj. unfold callAnthropicAPI in E. simpl in E.
  injection E as _ <-. simpl. rewrite Hok, Hj. reflexivity.
Qed.

Lemma callAnthropicAPI_unparsed st h req k r e :
  callAnthropicAPI st h = Fetch req k ->
  json r = Throw e ->
  k (Responded r) = Reject e.
Proof.
  intros E Hj. unfold callAnthropicAPI in E. simpl in E.
  injection E as _ <-. simpl. rewrite Hj. destruct (negb (ok r)); reflexivity.
Qed.

Lemma callAnthropicAPI_success st h req k r data elems first :
  callAnthropicAPI st h = Fetch req k ->
  ok r = true -> json r = Normal data ->
  get_prop data "content" = Normal (VArr (first :: elems)) ->
  k (Responded r) = lift (get_prop first "text").
Proof.
  intros E Hok Hj Hc. unfold callAnthropicAPI in E. simpl in E.
  injection E as _ <-. simpl. rewrite Hok, Hj. simpl.
  unfold mbind, async_bind. simpl. rewrite Hc. reflexivity.
Qed.

Lemma callOpenAIAPI_failure st h req k r body :
  callOpenAIAPI st h = Fetch req k ->
  ok r = false -> json r = Normal body ->
  k (Responded r) = lift (throw_api_error body).
Proof.
  intros E Hok Hj. unfold callOpenAIAPI in E. simpl in E.
  injection E as _ <-. simpl. rewrite Hok, Hj. reflexivity.
Qed.

Lemma callOpenAIAPI_success st h req k r data elems first m :
  callOpenAIAPI st h = Fetch req k ->
  ok r = true -> json r = Normal data ->
  get_prop data "choices" = Normal (VArr (first :: elems)) ->
  get_prop first "message" = Normal m ->
  k (Responded r) = lift (get_prop m "content").
Proof.
  intros E Hok Hj Hc Hm. unfold callOpenAIAPI in E. simpl in E.
  injection E as _ <-. simpl. rewrite Hok, Hj. simpl.
  unfold mbind, async_bind. simpl. rewrite Hc. simpl. rewrite Hm. reflexivity.
Qed.

(** On a non-2xx response with a parsed, non-null body whose nested
    field is text or falsy, the dispatch throws the error built from the
    body. *)
Lemma adapter_call_failure st req k r body :
  adapter_call st = Fetch req k ->
  ok r = false -> json r = Normal body -> nullish body = false ->
  field_is_text_or_falsy body = true ->
  k (Responded r) = lift (Throw (mkError (failure_message body))).
Proof.
  unfold adapter_call. intros E Hok Hj Hn Hf.
  rewrite <- (throw_api_error_message body Hn Hf).
  destruct (String.eqb (provider st) "anthropic").
  - eapply callAnthropicAPI_failure; eassumption.
  - destruct (String.eqb (provider st) "openai"); [|discriminate].
    eapply callOpenAIAPI_failure; eassumption.
Qed.







(** Scenario A, evaluated: the request carries the greeting and "hello",
    and the 200 answer is appended as it is. *)
Example scenario_A :
  let w := run [Submit; Settle 0 (Responded response_200)] hello_world in
  List.map body_messages (sent w) =
    [ [ message_value {| role := "assistant";
                         content := VStr "Hello! I'm A sarcastic cooking assistant. How can I help you today?" |};
        message_value {| role := "user"; content := VStr "hello" |} ] ] /\
  messages (ui w) =
    messages (ui hello_world)
      ++ [ {| role := "user"; content := VStr "hello" |};
           {| role := "assistant"; content := VStr "hi there" |} ].
Proof. vm_compute. split; reflexivity. Qed.

End Replies.

(* ===================================================================== *)
(** * Failures *)
(* ===================================================================== *)

Section Failures.

Implicit Types (st : state) (h : list Message) (w : world) (r : response).

Lemma adapter_known st :
  String.eqb (provider st) "anthropic" || String.eqb (provider st) "openai" = true ->
  exists req k, adapter_call st = Fetch req k /\ forall o, settled (k o).
Proof.
  intros Hp. destruct (adapter_call_cases st) as [H|(_ & Ha & Ho)]; [exact H|].
  rewrite Ha, Ho in Hp. discriminate.
Qed.




End Failures.

(* ===================================================================== *)
(** * The conversation only grows *)
(* ===================================================================== *)

Section Growth.

Implicit Types (st : state) (w : world).

Lemma appends_only_pure {A} (t : async state A) : pure t -> appends_only t.
Proof.
  induction t as [a|e|u k IH|req k IH]; simpl; intros Ht; try exact I.
  - destruct Ht.
  - intros o. apply IH, Ht.
Qed.

Lemma appends_only_bind {A B} (t : async state A) (f : A -> async state B) :
  appends_only t -> (forall a, appends_only (f a)) -> appends_only (t ≫= f).
Proof.
  induction t as [a|e|u k IH|req k IH]; simpl; intros Ht Hf.
  - apply Hf.
  - exact I.
  - destruct Ht as [Hu Hk]. split; [exact Hu|]. apply IH; assumption.
  - intros o. apply IH; [apply Ht|exact Hf].
Qed.

Lemma appends_only_try_catch {A} (t : async state A) (h : Error -> async state A) :
  appends_only t -> (forall e, appends_only (h e)) -> appends_only (try_catch t h).
Proof.
  induction t as [a|e|u k IH|req k IH]; simpl; intros Ht Hh.
  - exact I.
  - apply Hh.
  - destruct Ht as [Hu Hk]. split; [exact Hu|]. apply IH; assumption.
  - intros o. apply IH; [apply Ht|exact Hh].
Qed.

Lemma appends_only_try_finally {A} (t : async state A) (fin : async state unit) :
  appends_only t -> appends_only fin -> appends_only (try_finally t fin).
Proof.
  induction t as [a|e|u k IH|req k IH]; simpl; intros Ht Hf.
  - apply (appends_only_bind fin); [exact Hf|intros; exact I].
  - apply (appends_only_bind fin); [exact Hf|intros; exact I].
  - destruct Ht as [Hu Hk]. split; [exact Hu|]. apply IH; assumption.
  - intros o. apply IH; [apply Ht|exact Hf].
Qed.

Lemma appends_only_push (m : Message) :
  appends_only (set_state (setMessages (fun prev => prev ++ [m]))).
Proof. split; [|exact I]. intros st. simpl. apply prefix_app_r. reflexivity. Qed.

Lemma appends_only_finish (t : async state jsval) : pure t -> appends_only (finish t).
Proof.
  intros Ht. unfold finish. apply appends_only_try_finally.
  - apply appends_only_try_catch.
    + apply appends_only_bind; [apply appends_only_pure, Ht|].
      intros a. apply appends_only_push.
    + intros e. apply appends_only_push.
  - split; [|exact I]. intros st. reflexivity.
Qed.

(** Driving an append-only task keeps what the conversation holds and
    queues append-only continuations only. *)
Lemma drive_appends_only (t : async state unit) w :
  appends_only t -> inflight_append_only w ->
  messages (ui w) `prefix_of` messages (ui (drive t w)) /\
  inflight_append_only (drive t w).
Proof.
  revert w. induction t as [a|e|u k IH|req k IH]; simpl; intros w Ht Hw.
  - split; [reflexivity|exact Hw].
  - split; [reflexivity|exact Hw].
  - destruct Ht as [Hu Hk].
    destruct (IH (with_ui u w) Hk Hw) as [Hp Hi]. split; [|exact Hi].
    etrans; [apply (Hu (ui w))|exact Hp].
  - split; [reflexivity|].
    unfold inflight_append_only in *. simpl.
    apply Forall_app. split; [exact Hw|]. constructor; [exact Ht|constructor].
Qed.

Lemma saveSettings_messages st ls :
  messages (saveSettings st ls).1 = messages st.
Proof. unfold saveSettings. destruct (negb _); reflexivity. Qed.

Lemma handle_grows ev w :
  inflight_append_only w ->
  messages (ui w) `prefix_of` messages (ui (handle ev w)) /\
  inflight_append_only (handle ev w).
Proof.
  intros Hw. destruct ev as [|i o| | |v|v|p| |]; simpl;
    try (split; [reflexivity|exact Hw]).
  - (* Submit *)
    destruct (submit_blocked (ui w)) eqn:Hb.
    + rewrite (handleSubmit_blocked _ Hb). split; [reflexivity|exact Hw].
    + rewrite (handleSubmit_accepted _ Hb). simpl drive.
      set (w' := with_ui (setIsLoading true) _).
      destruct (drive_appends_only (finish (adapter_call (ui w))) w') as [Hp Hi].
      * apply appends_only_finish, adapter_call_pure.
      * exact Hw.
      * split; [|exact Hi].
        etrans; [|exact Hp]. subst w'. simpl.
        apply prefix_app_r. reflexivity.
  - (* Settle *)
    destruct (inflight w !! i) as [k|] eqn:Hk; [|split; [reflexivity|exact Hw]].
    apply (drive_appends_only (k o)
             (mkWorld (ui w) (localStorage w) (delete i (inflight w)) (sent w))).
    + exact (proj1 (Forall_lookup _ _) Hw i k Hk o).
    + unfold inflight_append_only in *. simpl. apply Forall_delete, Hw.
  - (* SaveSettings *)
    pose proof (saveSettings_messages (ui w) (localStorage w)) as Hm.
    destruct (saveSettings (ui w) (localStorage w)) as [st ls]. simpl in *.
    rewrite Hm. split; [reflexivity|exact Hw].
Qed.

Lemma step_grows ev w :
  inflight_append_only w ->
  messages (ui w) `prefix_of` messages (ui (step ev w)) /\
  inflight_append_only (step ev w).
Proof.
  intros Hw. destruct (handle_grows ev w Hw) as [Hp Hi].
  unfold step, with_ui, after_render, show_settings_effect.
  repeat match goal with
         | |- context [if ?c then _ else _] => destruct c
         end; split; assumption.
Qed.

Lemma run_grows evs w :
  inflight_append_only w ->
  messages (ui w) `prefix_of` messages (ui (run evs w)) /\
  inflight_append_only (run evs w).
Proof.
  revert w. induction evs as [|ev evs IH]; intros w Hw.
  - split; [reflexivity|exact Hw].
  - destruct (step_grows ev w Hw) as [Hp Hi].
    destruct (IH (step ev w) Hi) as [Hp' Hi'].
    split; [|exact Hi']. etrans; [exact Hp|exact Hp'].
Qed.

Lemma run_app evs1 evs2 w : run (evs1 ++ evs2) w = run evs2 (run evs1 w).
Proof. apply fold_left_app. Qed.

(** C8.  From the mounted page, along every sequence of events (submits,
    fetches settling, save, clear, edits of the form fields), the message
    list at any moment is a prefix of the message list at every later
    moment: each Message, once appended, stays at its position unchanged,
    and the list never gets shorter. *)
Theorem conversation_only_grows (agentDescription : string)
    (ls : gmap string string) (evs1 evs2 : list event) :
  let earlier := messages (ui (run evs1 (start agentDescription ls))) in
  let later := messages (ui (run (evs1 ++ evs2) (start agentDescription ls))) in
  earlier `prefix_of` later /\
  length earlier <= length later /\
  (forall i m, earlier !! i = Some m -> later !! i = Some m).
Proof.
  intros earlier later.
  assert (H0 : inflight_append_only (start agentDescription ls)) by constructor.
  destruct (run_grows evs1 _ H0) as [_ H1].
  destruct (run_grows evs2 _ H1) as [Hp _].
  assert (Hpre : earlier `prefix_of` later).
  { subst earlier later. rewrite run_app. exact Hp. }
  split; [exact Hpre|]. split.
  - apply prefix_length, Hpre.
  - intros i m Hi. eapply prefix_lookup_Some; eassumption.
Qed.

End Growth.

(* ===================================================================== *)
(** * What every reachable page satisfies *)
(* ===================================================================== *)

Section PageInvariant.

Implicit Types (st : state) (w : world) (ms : list Message).

Lemma mount_conversation (agentDescription : string) (ls : gmap string string) :
  messages (mount agentDescription ls) = [greeting agentDescription] /\
  input (mount agentDescription ls) = "" /\
  isLoading (mount agentDescription ls) = false /\
  showSettings (mount agentDescription ls) = true.
Proof.
  unfold mount, after_render, show_settings_effect, load. simpl.
  repeat match goal with
         | |- context [if ?c then _ else _] => destruct c
         end; repeat split.
Qed.

Lemma even_length_snoc {A} (l : list A) (x : A) :
  Nat.even (length (l ++ [x])) = negb (Nat.even (length l)).
Proof.
  rewrite length_app, Nat.add_1_r, Nat.even_succ, <- Nat.negb_even. reflexivity.
Qed.

Lemma role_at_length ms :
  role_at (length ms) = if Nat.even (length ms) then "assistant" else "user".
Proof. reflexivity. Qed.

Lemma roles_snoc ms (x : Message) :
  (forall i m, ms !! i = Some m -> role m = role_at i) ->
  role x = role_at (length ms) ->
  forall i m, (ms ++ [x]) !! i = Some m -> role m = role_at i.
Proof.
  intros Hms Hx i m Hi. apply lookup_snoc_Some in Hi as [[_ Hi]|[-> <-]].
  - apply (Hms i m Hi).
  - exact Hx.
Qed.

Lemma replays_later ms ms' req :
  ms `prefix_of` ms' -> replays ms req -> replays ms' req.
Proof.
  intros Hp (earlier & user & Hpre & Hu & Hb).
  exists earlier, user. split; [|split; assumption].
  etrans; eassumption.
Qed.

Lemma sent_later ms ms' (reqs : list request) :
  ms `prefix_of` ms' ->
  Forall (fun req => to_provider req = true /\ replays ms req) reqs ->
  Forall (fun req => to_provider req = true /\ replays ms' req) reqs.
Proof.
  intros Hp H. eapply Forall_impl; [exact H|]. intros req [Ht Hr].
  split; [exact Ht|]. eapply replays_later; eassumption.
Qed.

(** Whatever the dispatch sends is a POST to one of the two endpoints. *)
Lemma adapter_call_to_provider st req k :
  adapter_call st = Fetch req k -> to_provider req = true.
Proof.
  unfold adapter_call.
  destruct (String.eqb (provider st) "anthropic").
  - destruct (callAnthropicAPI_request st (messageHistory_of st)) as (k' & -> & _).
    intros E. injection E as <- _. reflexivity.
  - destruct (String.eqb (provider st) "openai"); [|discriminate].
    destruct (callOpenAIAPI_request st (messageHistory_of st)) as (k' & -> & _).
    intros E. injection E as <- _. reflexivity.
Qed.

(** Events that leave the conversation, the flag, the fetches in flight
    and the record of requests as they are keep the invariant. *)
Lemma page_invariant_frame w w' :
  messages (ui w') = messages (ui w) ->
  isLoading (ui w') = isLoading (ui w) ->
  inflight w' = inflight w ->
  sent w' = sent w ->
  page_invariant w -> page_invariant w'.
Proof.
  intros Hm Hl Hi Hs [H1 H2 H3 H4].
  split; rewrite ?Hm, ?Hl, ?Hi, ?Hs; assumption.
Qed.

Lemma after_render_frame (before after : state) :
  messages (after_render before after) = messages after /\
  isLoading (after_render before after) = isLoading after /\
  input (after_render before after) = input after /\
  apiKey (after_render before after) = apiKey after /\
  provider (after_render before after) = provider after.
Proof.
  unfold after_render, show_settings_effect.
  repeat match goal with
         | |- context [if ?c then _ else _] => destruct c
         end; repeat split.
Qed.

Lemma step_frame ev w :
  messages (ui (step ev w)) = messages (ui (handle ev w)) /\
  isLoading (ui (step ev w)) = isLoading (ui (handle ev w)) /\
  inflight (step ev w) = inflight (handle ev w) /\
  sent (step ev w) = sent (handle ev w) /\
  localStorage (step ev w) = localStorage (handle ev w).
Proof.
  unfold step, with_ui. simpl.
  destruct (after_render_frame (ui w) (ui (handle ev w))) as (Hm & Hl & _).
  rewrite Hm, Hl. repeat split.
Qed.

Lemma page_invariant_start (agentDescription : string) (ls : gmap string string) :
  page_invariant (start agentDescription ls).
Proof.
  destruct (mount_conversation agentDescription ls) as (Hm & _ & Hl & _).
  split; unfold start; simpl; rewrite ?Hm, ?Hl.
  - intros [|i] m Hi; [injection Hi as <-; reflexivity|discriminate].
  - reflexivity.
  - reflexivity.
  - constructor.
Qed.

Lemma page_invariant_submitted w req (k : fetch_outcome -> async state jsval) :
  page_invariant w ->
  submit_blocked (ui w) = false ->
  adapter_call (ui w) = Fetch req k ->
  (forall o, settled (k o)) ->
  page_invariant (mkWorld (submitted (ui w)) (localStorage w)
                          (inflight w ++ [fun o => finish (k o)]) (sent w ++ [req])).
Proof.
  intros [H1 H2 H3 H4] Hb Hk Hs.
  apply submit_accepted_iff in Hb as (_ & Hl & _).
  rewrite Hl in H2, H3.
  split; cbn [ui inflight sent]; rewrite ?messages_submitted.
  - apply roles_snoc; [exact H1|]. rewrite role_at_length, H2. reflexivity.
  - rewrite even_length_snoc, H2. reflexivity.
  - change (isLoading (submitted (ui w))) with true. cbv beta iota.
    rewrite H3. eexists. split; [reflexivity|].
    intros o. destruct (Hs o) as [c ->]. exists c. reflexivity.
  - apply Forall_app. split.
    + eapply sent_later; [|exact H4]. apply prefix_app_r. reflexivity.
    + constructor; [|constructor]. split.
      * eapply adapter_call_to_provider, Hk.
      * exists (messages (ui w)), (userMessage_of (ui w)).
        split; [reflexivity|]. split; [reflexivity|].
        apply (adapter_call_body _ _ _ Hk).
Qed.

Lemma page_invariant_replied w (c : completion jsval) :
  page_invariant w ->
  isLoading (ui w) = true ->
  page_invariant (mkWorld (replied c (ui w)) (localStorage w) [] (sent w)).
Proof.
  intros [H1 H2 H3 H4] Hl. rewrite Hl in H2.
  split; cbn [ui inflight sent]; rewrite ?messages_replied.
  - apply roles_snoc; [exact H1|]. rewrite role_at_length, H2. reflexivity.
  - rewrite even_length_snoc, H2. reflexivity.
  - reflexivity.
  - eapply sent_later; [|exact H4]. apply prefix_app_r. reflexivity.
Qed.

Lemma page_invariant_step ev w : page_invariant w -> page_invariant (step ev w).
Proof.
  intros Hw.
  destruct ev as [|i o| | |v|v|p| |].
  - (* Submit *)
    destruct (submit_blocked (ui w)) eqn:Hb.
    + replace (step Submit w) with w; [exact Hw|].
      symmetry. rewrite step_same_key; unfold handle;
        rewrite (handleSubmit_blocked _ Hb); reflexivity.
    + destruct (adapter_call_cases (ui w)) as [(req & k & Hk & Hs)|(Hk & _)].
      * rewrite (step_Submit_fetch w req k Hb Hk).
        apply page_invariant_submitted; assumption.
      * rewrite (step_Submit_now w (Normal VUndefined) Hb Hk).
        pose proof Hw as [H1 H2 H3 H4].
        apply submit_accepted_iff in Hb as (_ & Hl & _).
        rewrite Hl in H2, H3.
        split; unfold with_ui; simpl ui; simpl inflight; simpl sent.
        -- rewrite messages_replied, messages_submitted.
           apply roles_snoc; [apply roles_snoc; [exact H1|]|].
           ++ rewrite role_at_length, H2. reflexivity.
           ++ rewrite role_at_length, even_length_snoc, H2. reflexivity.
        -- rewrite messages_replied, messages_submitted.
           rewrite !even_length_snoc, H2. reflexivity.
        -- exact H3.
        -- eapply sent_later; [|exact H4].
           rewrite messages_replied, messages_submitted.
           apply prefix_app_r, prefix_app_r. reflexivity.
  - (* Settle *)
    destruct (step_frame (Settle i o) w) as (Hm & Hl & Hi & Hs & _).
    apply (page_invariant_frame (handle (Settle i o) w)); try assumption.
    unfold handle.
    destruct (isLoading (ui w)) eqn:Hload.
    + pose proof (inv_flight _ Hw) as Hf. rewrite Hload in Hf.
      destruct Hf as (k & Hk & Hc). rewrite Hk.
      destruct i as [|i]; simpl; [|exact Hw].
      destruct (Hc o) as [c ->]. rewrite drive_finish_lift.
      apply (page_invariant_replied w c Hw Hload).
    + pose proof (inv_flight _ Hw) as Hf. rewrite Hload in Hf.
      rewrite Hf. simpl. exact Hw.
  - (* SaveSettings *)
    destruct (step_frame SaveSettings w) as (Hm & Hl & Hi & Hs & _).
    apply (page_invariant_frame w); rewrite ?Hm, ?Hl, ?Hi, ?Hs; try exact Hw;
      unfold handle, saveSettings; destruct (negb _); reflexivity.
  - (* ClearSettings *)
    destruct (step_frame ClearSettings w) as (Hm & Hl & Hi & Hs & _).
    apply (page_invariant_frame w); rewrite ?Hm, ?Hl, ?Hi, ?Hs; try exact Hw;
      reflexivity.
  - destruct (step_frame (ChangeInput v) w) as (Hm & Hl & Hi & Hs & _).
    apply (page_invariant_frame w); rewrite ?Hm, ?Hl, ?Hi, ?Hs; try exact Hw;
      reflexivity.
  - destruct (step_frame (ChangeApiKey v) w) as (Hm & Hl & Hi & Hs & _).
    apply (page_invariant_frame w); rewrite ?Hm, ?Hl, ?Hi, ?Hs; try exact Hw;
      reflexivity.
  - destruct (step_frame (ChangeProvider p) w) as (Hm & Hl & Hi & Hs & _).
    apply (page_invariant_frame w); rewrite ?Hm, ?Hl, ?Hi, ?Hs; try exact Hw;
      reflexivity.
  - destruct (step_frame OpenSettings w) as (Hm & Hl & Hi & Hs & _).
    apply (page_invariant_frame w); rewrite ?Hm, ?Hl, ?Hi, ?Hs; try exact Hw;
      reflexivity.
  - destruct (step_frame CancelSettings w) as (Hm & Hl & Hi & Hs & _).
    apply (page_invariant_frame w); rewrite ?Hm, ?Hl, ?Hi, ?Hs; try exact Hw;
      reflexivity.
Qed.

Lemma page_invariant_run evs w : page_invariant w -> page_invariant (run evs w).
Proof.
  revert w. induction evs as [|ev evs IH]; intros w Hw; [exact Hw|].
  apply IH, page_invariant_step, Hw.
Qed.

End PageInvariant.

(* ===================================================================== *)
(** * Consequences for every page reached from a mount *)
(* ===================================================================== *)

Section Reachable.

Implicit Types (st : state) (w : world) (ls : gmap string string).

(** X1.  What the page looks like right after mounting: the settings form is
    open whether or not a key is stored; the conversation is the greeting
    alone; a stored entry is taken over only if it is a non-empty string;
    Cancel is offered exactly when a key was taken over. *)
Theorem mount_opens_settings (agentDescription : string) ls :
  let st := mount agentDescription ls in
  showSettings st = true /\
  messages st = [greeting agentDescription] /\
  input st = "" /\
  isLoading st = false /\
  apiKey st = (match ls !! "ai_api_key" with Some k => k | None => "" end) /\
  provider st = (match ls !! "ai_provider" with
                 | Some p => if String.eqb p "" then "anthropic" else p
                 | None => "anthropic"
                 end) /\
  cancel_offered ls = negb (String.eqb (apiKey st) "") /\
  send_disabled st = true.
Proof.
  intros st. destruct (mount_conversation agentDescription ls) as (Hm & Hi & Hl & Hs).
  assert (Hk : apiKey st = match ls !! "ai_api_key" with Some k => k | None => "" end).
  { subst st. unfold mount. 
    destruct (after_render_frame (initial agentDescription)
                (show_settings_effect (initial agentDescription)
                   (load ls (initial agentDescription)))) as (_ & _ & _ & -> & _).
    unfold show_settings_effect, load, getItem. simpl.
    destruct (ls !! "ai_api_key") as [k|]; simpl.
    - destruct (String.eqb k "") eqn:E; simpl.
      + apply String.eqb_eq in E. subst k.
        destruct (stored_truthy (ls !! "ai_provider")); reflexivity.
      + destruct (stored_truthy (ls !! "ai_provider")); reflexivity.
    - destruct (stored_truthy (ls !! "ai_provider")); reflexivity. }
  repeat split; try assumption.
  - subst st. unfold mount.
    destruct (after_render_frame (initial agentDescription)
                (show_settings_effect (initial agentDescription)
                   (load ls (initial agentDescription)))) as (_ & _ & _ & _ & ->).
    unfold show_settings_effect, load, getItem. simpl.
    destruct (ls !! "ai_provider") as [p|]; simpl.
    + destruct (String.eqb p ""); simpl;
        destruct (stored_truthy (ls !! "ai_api_key")); reflexivity.
    + destruct (stored_truthy (ls !! "ai_api_key")); reflexivity.
  - rewrite Hk. unfold cancel_offered, getItem.
    destruct (ls !! "ai_api_key"); reflexivity.
  - subst st. unfold send_disabled. rewrite Hi, Hl. reflexivity.
Qed.

(** X2.  At most one request is in flight, and the loading flag (hence the
    three dots, and the disabling of the message box and of Send) is on
    exactly while one is. *)
Theorem one_request_in_flight (agentDescription : string) ls (evs : list event) :
  let w := run evs (start agentDescription ls) in
  length (inflight w) <= 1 /\
  (loading_shown (ui w) = true <-> inflight w <> []) /\
  (inflight w <> [] -> input_disabled (ui w) = true /\ send_disabled (ui w) = true).
Proof.
  intros w.
  pose proof (page_invariant_run evs _ (page_invariant_start agentDescription ls))
    as Hw. fold w in Hw.
  pose proof (inv_flight _ Hw) as Hf.
  unfold loading_shown, input_disabled, send_disabled.
  destruct (isLoading (ui w)).
  - destruct Hf as (k & -> & _). simpl. repeat split; try discriminate; lia.
  - rewrite Hf. simpl. repeat split; try congruence; try lia;
      intros H; congruence.
Qed.

(** X3.  Every request ever issued is a POST to one of the two provider
    endpoints, and only a submit issues one: a fetch settling, save,
    clear and the form edits never do. *)
Theorem requests_only_to_providers (agentDescription : string) ls
    (evs : list event) :
  let w := run evs (start agentDescription ls) in
  Forall (fun req =>
            method req = "POST" /\
            (url req = "https://api.anthropic.com/v1/messages" \/
             url req = "https://api.openai.com/v1/chat/completions"))
         (sent w) /\
  (forall ev, ev <> Submit -> sent (step ev w) = sent w) /\
  (exists new, sent (step Submit w) = sent w ++ new /\ length new <= 1).
Proof.
  intros w.
  pose proof (page_invariant_run evs _ (page_invariant_start agentDescription ls))
    as Hw. fold w in Hw.
  split; [|split].
  - eapply Forall_impl; [exact (inv_sent _ Hw)|].
    intros req [Ht _]. unfold to_provider in Ht.
    apply andb_true_iff in Ht as [Hm Hu]. apply String.eqb_eq in Hm.
    apply orb_true_iff in Hu. rewrite !String.eqb_eq in Hu. tauto.
  - intros ev Hev.
    destruct (step_frame ev w) as (_ & _ & _ & -> & _).
    destruct ev as [|i o| | |v|v|p| |]; try reflexivity; [congruence| |].
    + unfold handle. pose proof (inv_flight _ Hw) as Hf.
      destruct (isLoading (ui w)).
      * destruct Hf as (k & -> & Hc).
        destruct i as [|i]; [|reflexivity]. simpl.
        destruct (Hc o) as [c ->]. rewrite drive_finish_lift. reflexivity.
      * rewrite Hf. reflexivity.
    + unfold handle, saveSettings. destruct (negb _); reflexivity.
  - destruct (submit_blocked (ui w)) eqn:Hb.
    + exists []. split; [|simpl; lia].
      rewrite step_same_key; unfold handle; rewrite (handleSubmit_blocked _ Hb);
        try reflexivity. rewrite app_nil_r. reflexivity.
    + destruct (adapter_call_cases (ui w)) as [(req & k & Hk & Hs)|(Hk & _)].
      * exists [req]. rewrite (step_Submit_fetch w req k Hb Hk).
        split; [reflexivity|simpl; lia].
      * exists []. rewrite (step_Submit_now w (Normal VUndefined) Hb Hk).
        split; [|simpl; lia]. rewrite app_nil_r. reflexivity.
Qed.

(** X4.  The conversation takes turns: the Message at an even position is the
    assistant's and at an odd position the user's, the first one being the
    greeting; it ends with an assistant Message exactly when no reply is
    awaited. *)
Theorem roles_take_turns (agentDescription : string) ls (evs : list event) :
  let w := run evs (start agentDescription ls) in
  (forall i m, messages (ui w) !! i = Some m ->
               role m = if Nat.even i then "assistant" else "user") /\
  messages (ui w) !! 0 = Some (greeting agentDescription) /\
  Nat.odd (length (messages (ui w))) = negb (isLoading (ui w)).
Proof.
  intros w.
  pose proof (page_invariant_run evs _ (page_invariant_start agentDescription ls))
    as Hw. fold w in Hw.
  split; [exact (inv_roles _ Hw)|]. split.
  - assert (H0 : inflight_append_only (start agentDescription ls)) by constructor.
    destruct (run_grows evs _ H0) as [Hp _]. fold w in Hp.
    eapply prefix_lookup_Some; [|exact Hp].
    unfold start. simpl.
    destruct (mount_conversation agentDescription ls) as (-> & _). reflexivity.
  - rewrite <- Nat.negb_even, (inv_length _ Hw). reflexivity.
Qed.

Lemma page_invariant_appends w : page_invariant w -> inflight_append_only w.
Proof.
  intros Hw. pose proof (inv_flight _ Hw) as Hf. unfold inflight_append_only.
  destruct (isLoading (ui w)).
  - destruct Hf as (k & -> & Hc). constructor; [|constructor].
    intros o. destruct (Hc o) as [c ->].
    apply appends_only_finish, pure_lift.
  - rewrite Hf. constructor.
Qed.

(** What one event adds to the record of requests. *)
Lemma sent_step ev w :
  page_invariant w ->
  List.map body_messages (sent (step ev w)) =
    List.map body_messages (sent w)
      ++ List.map (List.map wire_message)
           (match ev with
            | Submit => if sends_request (ui w) then [newMessages_of (ui w)] else []
            | _ => []
            end).
Proof.
  intros Hw.
  destruct ev as [|i o| | |v|v|p| |].
  - unfold sends_request.
    destruct (submit_blocked (ui w)) eqn:Hb; simpl negb; cbv beta iota.
    + rewrite (step_Submit_blocked w Hb). simpl. rewrite app_nil_r. reflexivity.
    + destruct (adapter_call_cases (ui w)) as [(req & k & Hk & Hs)|(Hk & Ha & Ho)].
      * rewrite (step_Submit_fetch w req k Hb Hk). cbn [sent].
        assert (Hp : String.eqb (provider (ui w)) "anthropic"
                     || String.eqb (provider (ui w)) "openai" = true).
        { unfold adapter_call in Hk.
          destruct (String.eqb (provider (ui w)) "anthropic"); [reflexivity|].
          destruct (String.eqb (provider (ui w)) "openai"); [reflexivity|].
          discriminate. }
        rewrite Hp. rewrite List.map_app. simpl.
        rewrite (adapter_call_body _ _ _ Hk). reflexivity.
      * rewrite (step_Submit_now w (Normal VUndefined) Hb Hk).
        rewrite Ha, Ho. simpl. rewrite app_nil_r. reflexivity.
  - destruct (step_frame (Settle i o) w) as (_ & _ & _ & -> & _).
    simpl List.map at 3. rewrite app_nil_r. f_equal.
    unfold handle. pose proof (inv_flight _ Hw) as Hf.
    destruct (isLoading (ui w)).
    + destruct Hf as (k & -> & Hc).
      destruct i as [|i]; [|reflexivity]. simpl.
      destruct (Hc o) as [c ->]. rewrite drive_finish_lift. reflexivity.
    + rewrite Hf. reflexivity.
  - destruct (step_frame SaveSettings w) as (_ & _ & _ & -> & _).
    simpl List.map at 3. rewrite app_nil_r. f_equal.
    unfold handle, saveSettings. destruct (negb _); reflexivity.
  - destruct (step_frame ClearSettings w) as (_ & _ & _ & -> & _).
    simpl. rewrite app_nil_r. reflexivity.
  - destruct (step_frame (ChangeInput v) w) as (_ & _ & _ & -> & _).
    simpl. rewrite app_nil_r. reflexivity.
  - destruct (step_frame (ChangeApiKey v) w) as (_ & _ & _ & -> & _).
    simpl. rewrite app_nil_r. reflexivity.
  - destruct (step_frame (ChangeProvider p) w) as (_ & _ & _ & -> & _).
    simpl. rewrite app_nil_r. reflexivity.
  - destruct (step_frame OpenSettings w) as (_ & _ & _ & -> & _).
    simpl. rewrite app_nil_r. reflexivity.
  - destruct (step_frame CancelSettings w) as (_ & _ & _ & -> & _).
    simpl. rewrite app_nil_r. reflexivity.
Qed.

Lemma sent_run evs w :
  page_invariant w ->
  List.map body_messages (sent (run evs w)) =
    List.map body_messages (sent w)
      ++ List.map (List.map wire_message) (histories evs w).
Proof.
  revert w. induction evs as [|ev evs IH]; intros w Hw.
  - simpl. rewrite app_nil_r. reflexivity.
  - change (run (ev :: evs) w) with (run evs (step ev w)).
    rewrite (IH _ (page_invariant_step ev w Hw)), (sent_step ev w Hw).
    cbn [histories]. rewrite List.map_app, app_assoc. reflexivity.
Qed.

(** Each recorded history extends the conversation it was taken from, is
    still a prefix of the conversation at the end, and ends with the user
    Message of its submit. *)
Lemma histories_within evs w :
  page_invariant w ->
  Forall (fun h =>
            messages (ui w) `prefix_of` h /\
            h `prefix_of` messages (ui (run evs w)) /\
            exists earlier text,
              h = earlier ++ [ {| role := "user"; content := VStr text |} ])
         (histories evs w).
Proof.
  revert w. induction evs as [|ev evs IH]; intros w Hw; [constructor|].
  change (run (ev :: evs) w) with (run evs (step ev w)).
  pose proof (page_invariant_step ev w Hw) as Hw'.
  destruct (step_grows ev w (page_invariant_appends w Hw)) as [Hstep _].
  destruct (run_grows evs (step ev w) (page_invariant_appends _ Hw')) as [Hrun _].
  cbn [histories]. apply Forall_app. split.
  - destruct ev as [|i o| | |v|v|p| |]; try constructor.
    unfold sends_request.
    destruct (submit_blocked (ui w)) eqn:Hb; [constructor|].
    destruct (adapter_call_cases (ui w)) as [(req & k & Hk & Hs)|(Hk & Ha & Ho)].
    + destruct (_ && _); constructor; [|constructor].
      split; [apply prefix_app_r; reflexivity|]. split.
      * assert (Hm : messages (ui (step Submit w)) = newMessages_of (ui w))
          by (rewrite (step_Submit_fetch w req k Hb Hk); reflexivity).
        rewrite <- Hm. exact Hrun.
      * exists (messages (ui w)), (input (ui w)). reflexivity.
    + rewrite Ha, Ho. constructor.
  - eapply Forall_impl; [apply (IH _ Hw')|].
    intros h (H1 & H2 & H3). split; [|split; assumption].
    etrans; eassumption.
Qed.


End Reachable.

(* ===================================================================== *)
(** * More on the handlers *)
(* ===================================================================== *)

Section TrimFacts.

Lemma trimStart_cases (s : string) :
  trimStart s = "" \/
  exists c r, trimStart s = String c r /\ is_white_space c = false.
Proof.
  induction s as [|c rest IH]; simpl; [left; reflexivity|].
  destruct (is_white_space c) eqn:E; [exact IH|].
  right. exists c, rest. split; [reflexivity|exact E].
Qed.

Lemma trimEnd_head (c : ascii) (r : string) :
  is_white_space c = false -> exists r', trimEnd (String c r) = String c r'.
Proof.
  intros E. simpl. destruct (trimEnd r) as [|c' k].
  - rewrite E. exists "". reflexivity.
  - exists (String c' k). reflexivity.
Qed.

Lemma trimEnd_idem (s : string) : trimEnd (trimEnd s) = trimEnd s.
Proof.
  induction s as [|c rest IH]; simpl; [reflexivity|].
  destruct (trimEnd rest) as [|c' k] eqn:E.
  - destruct (is_white_space c) eqn:Ec; simpl; [reflexivity|].
    rewrite Ec. reflexivity.
  - change (trimEnd (String c (String c' k))) with
      (match trimEnd (String c' k) with
       | EmptyString => if is_white_space c then EmptyString else String c EmptyString
       | kept => String c kept
       end).
    rewrite IH. reflexivity.
Qed.

(** Trimming twice is trimming once. *)
Lemma trim_idem (s : string) : trim (trim s) = trim s.
Proof.
  unfold trim. destruct (trimStart_cases s) as [->|(c & r & -> & Ec)].
  - reflexivity.
  - destruct (trimEnd_head c r Ec) as [r' E]. rewrite E.
    simpl trimStart. rewrite Ec, <- E. apply trimEnd_idem.
Qed.

End TrimFacts.

Section Handlers.

Implicit Types (st : state) (w : world) (ls : gmap string string)
  (h : list Message) (r : response).

(** The fetch rejecting (no response at all) makes either adapter throw
    the transport's error. *)
Lemma adapter_call_network_failure st req k e :
  adapter_call st = Fetch req k -> k (Failed e) = lift (Throw e).
Proof.
  unfold adapter_call.
  destruct (String.eqb (provider st) "anthropic").
  - unfold callAnthropicAPI. simpl. intros E. injection E as _ <-. reflexivity.
  - destruct (String.eqb (provider st) "openai"); [|discriminate].
    unfold callOpenAIAPI. simpl. intros E. injection E as _ <-. reflexivity.
Qed.

(** A submit and the settling of its fetch, with nothing in between. *)
Lemma turn_outcome w req (k : fetch_outcome -> async state jsval) o c :
  submit_blocked (ui w) = false ->
  inflight w = [] ->
  adapter_call (ui w) = Fetch req k ->
  k o = lift c ->
  run [Submit; Settle 0 o] w =
    mkWorld (replied c (submitted (ui w))) (localStorage w) [] (sent w ++ [req]).
Proof.
  intros Hb Hi Hk Hc. unfold run. simpl fold_left.
  rewrite (step_Submit_fetch w req k Hb Hk), Hi. simpl app at 1.
  apply (step_Settle_only _ _ _ k o c Hc).
Qed.

(** X6.  handleSubmit never rejects.  In every state and against every
    network it completes normally, having issued at most one request; it
    only extends the conversation, and leaves the loading flag, the
    apiKey and the provider as it found them. *)
Theorem handleSubmit_never_rejects st (net : request -> fetch_outcome) :
  exists st' reqs,
    exec net (handleSubmit st) st = (st', Normal tt, reqs) /\
    length reqs <= 1 /\
    messages st `prefix_of` messages st' /\
    isLoading st' = isLoading st /\
    apiKey st' = apiKey st /\
    provider st' = provider st.
Proof.
  destruct (submit_blocked st) eqn:Hb.
  - exists st, []. rewrite (handleSubmit_blocked _ Hb). simpl.
    repeat split; [lia|reflexivity].
  - eexists _, _. split; [apply (exec_handleSubmit net st Hb)|].
    apply submit_accepted_iff in Hb as (_ & Hl & _).
    split; [|split; [|split; [|split]]].
    + unfold requests_of.
      destruct (adapter_call_cases st) as [(req & k & -> & Hs)|(-> & _)].
      * destruct (Hs (net req)) as [c Hc].
        rewrite (exec_one_fetch net req k c _ Hc). simpl. lia.
      * simpl. lia.
    + rewrite messages_turn. apply prefix_app_r. reflexivity.
    + rewrite Hl. reflexivity.
    + reflexivity.
    + reflexivity.
Qed.

(** X7.  When no response arrives (the fetch rejects), the turn still ends:
    after the user Message comes an assistant Message quoting the
    transport's error, the loading flag is cleared and nothing stays in
    flight. *)
Theorem network_failure_becomes_message w (e : Error) :
  submit_blocked (ui w) = false ->
  inflight w = [] ->
  String.eqb (provider (ui w)) "anthropic" || String.eqb (provider (ui w)) "openai" = true ->
  let w' := run [Submit; Settle 0 (Failed e)] w in
  messages (ui w') =
    messages (ui w)
      ++ [ {| role := "user"; content := VStr (input (ui w)) |};
           {| role := "assistant";
              content := VStr ("Error: " +:+ message e
                               +:+ ". Please check your API key in settings.") |} ] /\
  isLoading (ui w') = false /\
  inflight w' = [] /\
  length (sent w') = S (length (sent w)).
Proof.
  intros Hb Hi Hp w'.
  destruct (adapter_known _ Hp) as (req & k & Hk & _).
  subst w'.
  rewrite (turn_outcome w req k (Failed e) (Throw e) Hb Hi Hk
             (adapter_call_network_failure _ _ _ e Hk)).
  cbn [ui inflight sent]. rewrite messages_turn, length_app.
  repeat split. simpl. lia.
Qed.

Lemma network_failure_becomes_message_witness :
  let w := hello_world in
  let e := mkError "Failed to fetch" in
  let w' := run [Submit; Settle 0 (Failed e)] w in
  messages (ui w') =
    messages (ui w)
      ++ [ {| role := "user"; content := VStr (input (ui w)) |};
           {| role := "assistant";
              content := VStr ("Error: " +:+ message e
                               +:+ ". Please check your API key in settings.") |} ] /\
  isLoading (ui w') = false /\
  inflight w' = [] /\
  length (sent w') = S (length (sent w)).
Proof.
  apply (network_failure_becomes_message hello_world (mkError "Failed to fetch"));
    reflexivity.
Defined.

End Handlers.

Section SuccessEdges.

Implicit Types (st : state) (h : list Message) (r : response).

(** X8.  A 2xx answer that is not what the first adapter expects.  A body that
    is not JSON, a body without [content], and an empty [content] array
    each make the call throw (the parser's error, or the TypeError of the
    failed read); a first element without [text] makes it return
    [undefined], which the turn appends as the assistant's content. *)
Theorem anthropic_unexpected_success st h r :
  ok r = true ->
  let reply := result_of (fun _ => Responded r) (callAnthropicAPI st h) st in
  (forall e, json r = Throw e -> reply = Throw e) /\
  (forall props, json r = Normal (VObj props) ->
     assoc "content" props = None ->
     reply = Throw (mkError (typeErrorMessage VUndefined "0"))) /\
  (forall props, json r = Normal (VObj props) ->
     assoc "content" props = Some (VArr []) ->
     reply = Throw (mkError (typeErrorMessage VUndefined "text"))) /\
  (forall props fprops rest, json r = Normal (VObj props) ->
     assoc "content" props = Some (VArr (VObj fprops :: rest)) ->
     assoc "text" fprops = None ->
     reply = Normal VUndefined /\ assistant_content reply = VUndefined).
Proof.
  intros Hok reply.
  destruct (callAnthropicAPI_fetch st h) as (req & k & E & _).
  assert (Hr : forall c, k (Responded r) = lift c -> reply = c).
  { intros c Hc. subst reply. rewrite E.
    apply (result_of_one_fetch (Responded r) req k c st Hc). }
  unfold callAnthropicAPI in E. simpl in E. injection E as _ <-.
  split; [|split; [|split]].
  - intros e Hj. apply Hr. simpl. rewrite Hok, Hj. reflexivity.
  - intros props Hj Hc. apply Hr. simpl. rewrite Hok, Hj. simpl.
    rewrite Hc. reflexivity.
  - intros props Hj Hc. apply Hr. simpl. rewrite Hok, Hj. simpl.
    rewrite Hc. reflexivity.
  - intros props fprops rest Hj Hc Ht.
    assert (Hn : reply = Normal VUndefined).
    { apply Hr. simpl. rewrite Hok, Hj. simpl. rewrite Hc. simpl.
      rewrite Ht. reflexivity. }
    rewrite Hn. split; reflexivity.
Qed.

Lemma anthropic_unexpected_success_witness :
  let st := ui hello_world in
  let h := newMessages_of st in
  let r := response_200_no_text in
  let reply := result_of (fun _ => Responded r) (callAnthropicAPI st h) st in
  (forall e, json r = Throw e -> reply = Throw e) /\
  (forall props, json r = Normal (VObj props) ->
     assoc "content" props = None ->
     reply = Throw (mkError (typeErrorMessage VUndefined "0"))) /\
  (forall props, json r = Normal (VObj props) ->
     assoc "content" props = Some (VArr []) ->
     reply = Throw (mkError (typeErrorMessage VUndefined "text"))) /\
  (forall props fprops rest, json r = Normal (VObj props) ->
     assoc "content" props = Some (VArr (VObj fprops :: rest)) ->
     assoc "text" fprops = None ->
     reply = Normal VUndefined /\ assistant_content reply = VUndefined).
Proof.
  apply (anthropic_unexpected_success (ui hello_world)
           (newMessages_of (ui hello_world)) response_200_no_text).
  reflexivity.
Defined.

(** X9.  The same for the second adapter: a body that is not JSON, missing
    [choices], an empty [choices] array, and a first choice without
    [message] each make the call throw; a [message] without [content]
    makes it return [undefined]. *)
Theorem openai_unexpected_success st h r :
  ok r = true ->
  let reply := result_of (fun _ => Responded r) (callOpenAIAPI st h) st in
  (forall e, json r = Throw e -> reply = Throw e) /\
  (forall props, json r = Normal (VObj props) ->
     assoc "choices" props = None ->
     reply = Throw (mkError (typeErrorMessage VUndefined "0"))) /\
  (forall props, json r = Normal (VObj props) ->
     assoc "choices" props = Some (VArr []) ->
     reply = Throw (mkError (typeErrorMessage VUndefined "message"))) /\
  (forall props cprops rest, json r = Normal (VObj props) ->
     assoc "choices" props = Some (VArr (VObj cprops :: rest)) ->
     assoc "message" cprops = None ->
     reply = Throw (mkError (typeErrorMessage VUndefined "content"))) /\
  (forall props cprops rest mprops, json r = Normal (VObj props) ->
     assoc "choices" props = Some (VArr (VObj cprops :: rest)) ->
     assoc "message" cprops = Some (VObj mprops) ->
     assoc "content" mprops = None ->
     reply = Normal VUndefined /\ assistant_content reply = VUndefined).
Proof.
  intros Hok reply.
  destruct (callOpenAIAPI_fetch st h) as (req & k & E & _).
  assert (Hr : forall c, k (Responded r) = lift c -> reply = c).
  { intros c Hc. subst reply. rewrite E.
    apply (result_of_one_fetch (Responded r) req k c st Hc). }
  unfold callOpenAIAPI in E. simpl in E. injection E as _ <-.
  split; [|split; [|split; [|split]]].
  - intros e Hj. apply Hr. simpl. rewrite Hok, Hj. reflexivity.
  - intros props Hj Hc. apply Hr. simpl. rewrite Hok, Hj. simpl.
    rewrite Hc. reflexivity.
  - intros props Hj Hc. apply Hr. simpl. rewrite Hok, Hj. simpl.
    rewrite Hc. reflexivity.
  - intros props cprops rest Hj Hc Hm. apply Hr. simpl. rewrite Hok, Hj. simpl.
    rewrite Hc. simpl. rewrite Hm. reflexivity.
  - intros props cprops rest mprops Hj Hc Hm Ht.
    assert (Hn : reply = Normal VUndefined).
    { apply Hr. simpl. rewrite Hok, Hj. simpl. rewrite Hc. simpl.
      rewrite Hm. simpl. rewrite Ht. reflexivity. }
    rewrite Hn. split; reflexivity.
Qed.

Lemma openai_unexpected_success_witness :
  let st := ui hello_openai in
  let h := newMessages_of st in
  let r := response_200_openai_no_content in
  let reply := result_of (fun _ => Responded r) (callOpenAIAPI st h) st in
  (forall e, json r = Throw e -> reply = Throw e) /\
  (forall props, json r = Normal (VObj props) ->
     assoc "choices" props = None ->
     reply = Throw (mkError (typeErrorMessage VUndefined "0"))) /\
  (forall props, json r = Normal (VObj props) ->
     assoc "choices" props = Some (VArr []) ->
     reply = Throw (mkError (typeErrorMessage VUndefined "message"))) /\
  (forall props cprops rest, json r = Normal (VObj props) ->
     assoc "choices" props = Some (VArr (VObj cprops :: rest)) ->
     assoc "message" cprops = None ->
     reply = Throw (mkError (typeErrorMessage VUndefined "content"))) /\
  (forall props cprops rest mprops, json r = Normal (VObj props) ->
     assoc "choices" props = Some (VArr (VObj cprops :: rest)) ->
     assoc "message" cprops = Some (VObj mprops) ->
     assoc "content" mprops = None ->
     reply = Normal VUndefined /\ assistant_content reply = VUndefined).
Proof.
  apply (openai_unexpected_success (ui hello_openai)
           (newMessages_of (ui hello_openai)) response_200_openai_no_content).
  reflexivity.
Defined.

End SuccessEdges.

Section Waiting.

Implicit Types (st : state) (w : world) (ls : gmap string string).

(** While a reply is awaited, an event other than a fetch settling
    changes neither the conversation, nor the flag, nor what is in flight,
    nor what has been sent. *)
Lemma waiting_step ev w :
  is_settle ev = false ->
  isLoading (ui w) = true ->
  messages (ui (step ev w)) = messages (ui w) /\
  isLoading (ui (step ev w)) = true /\
  inflight (step ev w) = inflight w /\
  sent (step ev w) = sent w.
Proof.
  intros Hev Hl.
  destruct ev as [|i o| | |v|v|p| |]; try discriminate.
  - rewrite step_Submit_blocked; [repeat split; assumption|].
    apply submit_blocked_iff. right. left. exact Hl.
  - destruct (step_frame SaveSettings w) as (-> & -> & -> & -> & _).
    unfold handle, saveSettings. destruct (negb _); repeat split; assumption.
  - destruct (step_frame ClearSettings w) as (-> & -> & -> & -> & _).
    repeat split; assumption.
  - destruct (step_frame (ChangeInput v) w) as (-> & -> & -> & -> & _).
    repeat split; assumption.
  - destruct (step_frame (ChangeApiKey v) w) as (-> & -> & -> & -> & _).
    repeat split; assumption.
  - destruct (step_frame (ChangeProvider p) w) as (-> & -> & -> & -> & _).
    repeat split; assumption.
  - destruct (step_frame OpenSettings w) as (-> & -> & -> & -> & _).
    repeat split; assumption.
  - destruct (step_frame CancelSettings w) as (-> & -> & -> & -> & _).
    repeat split; assumption.
Qed.

Lemma waiting_run (mid : list event) w :
  forallb (fun ev => negb (is_settle ev)) mid = true ->
  isLoading (ui w) = true ->
  messages (ui (run mid w)) = messages (ui w) /\
  isLoading (ui (run mid w)) = true /\
  inflight (run mid w) = inflight w /\
  sent (run mid w) = sent w.
Proof.
  revert w. induction mid as [|ev mid IH]; intros w Hmid Hl.
  - repeat split. exact Hl.
  - simpl in Hmid. apply andb_true_iff in Hmid as [Hev Hmid].
    apply negb_true_iff in Hev.
    destruct (waiting_step ev w Hev Hl) as (Hm & Hl' & Hi & Hs).
    destruct (IH (step ev w) Hmid Hl') as (Hm2 & Hl2 & Hi2 & Hs2).
    change (run (ev :: mid) w) with (run mid (step ev w)).
    rewrite Hm2, Hi2, Hs2. repeat split; assumption.
Qed.

(** X10.  There is no cancelling and no second request.  Between an accepted
    submit and the settling of its fetch, whatever else happens (further
    submits, save, clear, a change of key or provider, typing) the
    conversation stays at the user Message and no other request goes out;
    when the fetch settles, the reply appended is the one of the adapter
    chosen at the submit, and the flag is cleared. *)
Theorem reply_arrives_whatever_happens_meanwhile w (mid : list event)
    (o : fetch_outcome) :
  submit_blocked (ui w) = false ->
  inflight w = [] ->
  String.eqb (provider (ui w)) "anthropic" || String.eqb (provider (ui w)) "openai" = true ->
  forallb (fun ev => negb (is_settle ev)) mid = true ->
  let st := ui w in
  let user := {| role := "user"; content := VStr (input st) |} in
  let waiting := run mid (step Submit w) in
  let settled := step (Settle 0 o) waiting in
  messages (ui waiting) = messages st ++ [user] /\
  isLoading (ui waiting) = true /\
  length (sent waiting) = S (length (sent w)) /\
  messages (ui settled) =
    messages st
      ++ [ user;
           {| role := "assistant";
              content := assistant_content
                           (result_of (fun _ => o) (adapter_call st) st) |} ] /\
  isLoading (ui settled) = false /\
  inflight settled = [] /\
  sent settled = sent waiting.
Proof.
  intros Hb Hi Hp Hmid st user waiting settled.
  destruct (adapter_known _ Hp) as (req & k & Hk & Hs).
  fold st in Hk.
  assert (E : step Submit w =
              mkWorld (submitted st) (localStorage w)
                      [fun o => finish (k o)] (sent w ++ [req])).
  { rewrite (step_Submit_fetch w req k Hb Hk), Hi. reflexivity. }
  destruct (waiting_run mid (step Submit w) Hmid) as (Hm & Hl & Hf & Hsent).
  { rewrite E. reflexivity. }
  fold waiting in Hm, Hl, Hf, Hsent. rewrite E in Hm, Hf, Hsent.
  cbn [ui inflight sent] in Hm, Hf, Hsent.
  destruct (Hs o) as [c Hc].
  assert (Hh : handle (Settle 0 o) waiting =
               mkWorld (replied c (ui waiting)) (localStorage waiting) []
                       (sent waiting)).
  { unfold handle. rewrite Hf. simpl. rewrite Hc, drive_finish_lift. reflexivity. }
  destruct (step_frame (Settle 0 o) waiting) as (Sm & Sl & Si & Ss & _).
  fold settled in Sm, Sl, Si, Ss. rewrite Hh in Sm, Sl, Si, Ss.
  cbn [ui inflight sent] in Sm, Sl, Si, Ss.
  rewrite Hk, (result_of_one_fetch o req k c st Hc).
  rewrite Sm, Sl, Si, Ss, messages_replied, Hm, Hsent, messages_submitted.
  rewrite <- app_assoc, length_app. simpl.
  repeat split; try assumption. lia.
Qed.

Lemma reply_arrives_whatever_happens_meanwhile_witness :
  let w := hello_world in
  let mid := [ChangeInput "again"; Submit; ChangeProvider OptOpenAI;
              ClearSettings; SaveSettings] in
  let o := Responded response_200 in
  let st := ui w in
  let user := {| role := "user"; content := VStr (input st) |} in
  let waiting := run mid (step Submit w) in
  let settled := step (Settle 0 o) waiting in
  messages (ui waiting) = messages st ++ [user] /\
  isLoading (ui waiting) = true /\
  length (sent waiting) = S (length (sent w)) /\
  messages (ui settled) =
    messages st
      ++ [ user;
           {| role := "assistant";
              content := assistant_content
                           (result_of (fun _ => o) (adapter_call st) st) |} ] /\
  isLoading (ui settled) = false /\
  inflight settled = [] /\
  sent settled = sent waiting.
Proof.
  apply (reply_arrives_whatever_happens_meanwhile hello_world
           [ChangeInput "again"; Submit; ChangeProvider OptOpenAI;
            ClearSettings; SaveSettings]
           (Responded response_200)); reflexivity.
Defined.

End Waiting.

Section Settings.

Implicit Types (st : state) (w : world) (ls : gmap string string).

(** X11.  After clear nothing can be sent or saved until a key is typed: Send,
    the message box and "Save & Start" are disabled, the settings form is
    open with no Cancel, and a submit or a save leaves the page as it
    is. *)
Theorem clear_blocks_submit_and_save w :
  let w' := step ClearSettings w in
  send_disabled (ui w') = true /\
  input_disabled (ui w') = true /\
  save_disabled (ui w') = true /\
  showSettings (ui w') = true /\
  cancel_offered (localStorage w') = false /\
  step Submit w' = w' /\
  step SaveSettings w' = w' /\
  messages (ui w') = messages (ui w) /\
  inflight w' = inflight w.
Proof.
  intros w'.
  assert (Hk : apiKey (ui w') = "").
  { subst w'. unfold step, with_ui. cbn [ui].
    destruct (after_render_frame (ui w) (ui (handle ClearSettings w)))
      as (_ & _ & _ & -> & _). reflexivity. }
  assert (Hshow : showSettings (ui w') = true).
  { subst w'. unfold step, with_ui, after_render, show_settings_effect. cbn [ui].
    repeat match goal with
           | |- context [if ?c then _ else _] => destruct c
           end; reflexivity. }
  assert (Hls : localStorage w' =
                delete "ai_provider" (delete "ai_api_key" (localStorage w))).
  { subst w'. destruct (step_frame ClearSettings w) as (_ & _ & _ & _ & ->).
    reflexivity. }
  assert (Hb : submit_blocked (ui w') = true).
  { apply submit_blocked_iff. right. right. exact Hk. }
  repeat split.
  - unfold send_disabled. rewrite Hk. rewrite !orb_true_r. reflexivity.
  - unfold input_disabled. rewrite Hk. rewrite orb_true_r. reflexivity.
  - unfold save_disabled. rewrite Hk. reflexivity.
  - exact Hshow.
  - unfold cancel_offered, getItem. rewrite Hls.
    rewrite lookup_delete_ne by discriminate. rewrite lookup_delete_eq. reflexivity.
  - apply step_Submit_blocked, Hb.
  - rewrite step_same_key; unfold handle;
      rewrite (saveSettings_blank (ui w') (localStorage w'));
      try (rewrite Hk; reflexivity); destruct w'; reflexivity.
  - subst w'. destruct (step_frame ClearSettings w) as (-> & _). reflexivity.
Qed.

(** X12.  Save and clear read and write the two entries [ai_api_key] and
    [ai_provider] only: every other entry of localStorage is as before.
    In the component, save changes nothing but [showSettings]; in
    particular the apiKey in use stays as typed, untrimmed. *)
Theorem settings_touch_two_entries st ls (k : string) :
  String.eqb k "ai_api_key" = false -> String.eqb k "ai_provider" = false ->
  (saveSettings st ls).2 !! k = ls !! k /\
  (clearSettings st ls).2 !! k = ls !! k /\
  messages (saveSettings st ls).1 = messages st /\
  input (saveSettings st ls).1 = input st /\
  isLoading (saveSettings st ls).1 = isLoading st /\
  apiKey (saveSettings st ls).1 = apiKey st /\
  provider (saveSettings st ls).1 = provider st.
Proof.
  intros Hk Hp. apply String.eqb_neq in Hk, Hp. split; [|split].
  - unfold saveSettings, setItem. destruct (negb _); simpl; [|reflexivity].
    rewrite !lookup_insert_ne by congruence. reflexivity.
  - unfold clearSettings, removeItem. simpl.
    rewrite !lookup_delete_ne by congruence. reflexivity.
  - unfold saveSettings. destruct (negb _); repeat split.
Qed.

Lemma settings_touch_two_entries_witness :
  let st := padded_key_state in
  let ls : gmap string string := <["theme" := "dark"]> stored_anthropic in
  (saveSettings st ls).2 !! "theme" = ls !! "theme" /\
  (clearSettings st ls).2 !! "theme" = ls !! "theme" /\
  messages (saveSettings st ls).1 = messages st /\
  input (saveSettings st ls).1 = input st /\
  isLoading (saveSettings st ls).1 = isLoading st /\
  apiKey (saveSettings st ls).1 = apiKey st /\
  provider (saveSettings st ls).1 = provider st.
Proof.
  apply (settings_touch_two_entries padded_key_state
           (<["theme" := "dark"]> stored_anthropic) "theme"); reflexivity.
Defined.

(** X13.  Saving twice is saving once, and what save stores overwrites what was
    stored before: afterwards the two entries depend on the form alone,
    not on the earlier contents. *)
Theorem save_is_idempotent_and_overwrites st ls ls0 :
  saveSettings (saveSettings st ls).1 (saveSettings st ls).2 = saveSettings st ls /\
  (save_disabled st = false ->
   (saveSettings st ls).2 !! "ai_api_key" = (saveSettings st ls0).2 !! "ai_api_key" /\
   (saveSettings st ls).2 !! "ai_provider" = (saveSettings st ls0).2 !! "ai_provider" /\
   showSettings (saveSettings st ls).1 = false) /\
  (save_disabled st = true -> saveSettings st ls = (st, ls)).
Proof.
  unfold save_disabled, saveSettings, setItem.
  destruct (String.eqb (trim (apiKey st)) "") eqn:E; simpl.
  - rewrite E. simpl. repeat split; discriminate.
  - rewrite E. simpl. split; [|split; [|discriminate]].
    + f_equal.
      set (m := <["ai_provider" := provider st]>
                  (<["ai_api_key" := trim (apiKey st)]> ls)).
      assert (Hk : m !! "ai_api_key" = Some (trim (apiKey st))).
      { subst m. rewrite lookup_insert_ne by discriminate. apply lookup_insert_eq. }
      assert (Hp : m !! "ai_provider" = Some (provider st))
        by (subst m; apply lookup_insert_eq).
      rewrite (insert_id m "ai_api_key" _ Hk). apply (insert_id m "ai_provider" _ Hp).
    + intros _. rewrite !lookup_insert_eq.
      rewrite !(lookup_insert_ne _ "ai_provider" "ai_api_key") by discriminate.
      rewrite !lookup_insert_eq. repeat split.
Qed.

(** X14.  What save stores as the key is never blank and carries no white space
    at either end; so after a reload a further save rewrites exactly what
    is stored. *)
Theorem stored_key_is_trimmed st ls (agentDescription : string) :
  blank (apiKey st) = false ->
  String.eqb (provider st) "" = false ->
  let ls' := (saveSettings st ls).2 in
  (exists key, ls' !! "ai_api_key" = Some key /\
               blank key = false /\ trim key = key) /\
  (saveSettings (mount agentDescription ls') ls').2 = ls'.
Proof.
  intros Hb Hp ls'.
  assert (Hls : ls' = <["ai_provider" := provider st]>
                        (<["ai_api_key" := trim (apiKey st)]> ls))
    by apply (saveSettings_storage st ls Hb).
  assert (Hk : ls' !! "ai_api_key" = Some (trim (apiKey st))).
  { rewrite Hls. rewrite lookup_insert_ne by discriminate. apply lookup_insert_eq. }
  assert (Hq : ls' !! "ai_provider" = Some (provider st)).
  { rewrite Hls. apply lookup_insert_eq. }
  assert (Hnb : blank (trim (apiKey st)) = false).
  { rewrite <- trim_eqb_blank, trim_idem, trim_eqb_blank. exact Hb. }
  split.
  - exists (trim (apiKey st)). split; [exact Hk|]. split; [exact Hnb|apply trim_idem].
  - assert (Hload : apiKey (load ls' (initial agentDescription)) = trim (apiKey st) /\
                    provider (load ls' (initial agentDescription)) = provider st).
    { apply load_present; try assumption.
      rewrite trim_eqb_blank. exact Hb. }
    assert (Hmount : apiKey (mount agentDescription ls') = trim (apiKey st) /\
                     provider (mount agentDescription ls') = provider st).
    { unfold mount.
      destruct (after_render_frame (initial agentDescription)
                  (show_settings_effect (initial agentDescription)
                     (load ls' (initial agentDescription)))) as (_ & _ & _ & -> & ->).
      unfold show_settings_effect. simpl. exact Hload. }
    destruct Hmount as [Ma Mp].
    rewrite saveSettings_storage by (rewrite Ma; exact Hnb).
    rewrite Ma, Mp, trim_idem.
    rewrite (insert_id ls' "ai_api_key" _ Hk).
    apply (insert_id ls' "ai_provider" _ Hq).
Qed.

Lemma stored_key_is_trimmed_witness :
  let st := padded_key_state in
  let ls' := (saveSettings st stored_anthropic).2 in
  (exists key, ls' !! "ai_api_key" = Some key /\
               blank key = false /\ trim key = key) /\
  (saveSettings (mount description ls') ls').2 = ls'.
Proof.
  apply (stored_key_is_trimmed padded_key_state stored_anthropic description);
    reflexivity.
Defined.

(** X15.  The view and the handlers agree.  Send is disabled exactly when
    handleSubmit would return at once, and enabled exactly when a submit
    adds to the conversation; a disabled message box implies a disabled
    Send; an accepted submit empties the message box. *)
Theorem send_enabled_iff_submit_adds w :
  send_disabled (ui w) = submit_blocked (ui w) /\
  (send_disabled (ui w) = false <->
   messages (ui (step Submit w)) <> messages (ui w)) /\
  (input_disabled (ui w) = true -> send_disabled (ui w) = true) /\
  (send_disabled (ui w) = false -> input (ui (step Submit w)) = "").
Proof.
  assert (E : send_disabled (ui w) = submit_blocked (ui w)).
  { unfold send_disabled, submit_blocked.
    destruct (isLoading (ui w)), (String.eqb (trim (input (ui w))) "");
      reflexivity. }
  assert (Hgrow : submit_blocked (ui w) = false ->
                  (exists rest, messages (ui (step Submit w))
                                = messages (ui w) ++ userMessage_of (ui w) :: rest) /\
                  input (ui (step Submit w)) = "").
  { intros Hb.
    destruct (adapter_call_cases (ui w)) as [(req & k & Hk & _)|(Hk & _)].
    - rewrite (step_Submit_fetch w req k Hb Hk). split; [exists []|]; reflexivity.
    - rewrite (step_Submit_now w (Normal VUndefined) Hb Hk).
      unfold with_ui. cbn [ui]. rewrite messages_turn.
      split; [eexists|]; reflexivity. }
  split; [exact E|]. rewrite E. split; [|split].
  - split.
    + intros Hb. destruct (Hgrow Hb) as [[rest Hm] _]. rewrite Hm.
      intros H. apply (f_equal length) in H. rewrite length_app in H.
      simpl in H. lia.
    + intros Hne. destruct (submit_blocked (ui w)) eqn:Hb; [|reflexivity].
      rewrite (step_Submit_blocked w Hb) in Hne. congruence.
  - unfold input_disabled, submit_blocked. intros H.
    apply orb_true_iff in H as [->| ->]; rewrite ?orb_true_r; reflexivity.
  - intros Hb. apply (Hgrow Hb).
Qed.

(** X16.  The vendor named in the settings note is the one whose endpoint
    receives the conversation and the key; with a provider tag that is
    neither of the two, the note names OpenAI although nothing is sent. *)
Theorem note_names_the_receiver st :
  (forall req k, adapter_call st = Fetch req k ->
     (note_vendor st = "Anthropic" /\
      url req = "https://api.anthropic.com/v1/messages" /\
      In ("x-api-key", apiKey st) (headers req)) \/
     (note_vendor st = "OpenAI" /\
      url req = "https://api.openai.com/v1/chat/completions" /\
      In ("Authorization", "Bearer " +:+ apiKey st) (headers req))) /\
  (String.eqb (provider st) "anthropic" = false ->
   String.eqb (provider st) "openai" = false ->
   note_vendor st = "OpenAI" /\ adapter_call st = Resolve VUndefined).
Proof.
  unfold note_vendor, adapter_call. split.
  - intros req k.
    destruct (String.eqb (provider st) "anthropic").
    + destruct (callAnthropicAPI_request st (messageHistory_of st)) as (k' & -> & _).
      intros E. injection E as <- _. left. simpl. tauto.
    + destruct (String.eqb (provider st) "openai"); [|discriminate].
      destruct (callOpenAIAPI_request st (messageHistory_of st)) as (k' & -> & _).
      intros E. injection E as <- _. right. simpl. tauto.
  - intros -> ->. split; reflexivity.
Qed.

End Settings.
